(** * A shallow embedding of [wordpress-rest-api-fetcher.js]

    Strings are modelled as Rocq [string]s, i.e. sequences of code units in
    the Latin-1 range 0..255; the JavaScript string primitives used by the
    script ([toLowerCase], [replace], [split], [join], [parseInt]) are
    written out on that range.  A JavaScript object used as a dictionary is
    an association list whose order is the order of [Object.keys]. *)

From Stdlib Require Import String Ascii List ZArith Lia Bool Sorting.Sorted
  Sorting.Permutation Numbers.DecimalString Numbers.DecimalPos Arith.Wf_nat.
Import ListNotations.
Open Scope string_scope.

(* ------------------------------------------------------------------ *)
(** ** JavaScript string primitives *)

Definition is_slash (c : ascii) : bool := Ascii.eqb c "/"%char.

(** [String.prototype.toLowerCase] on one Latin-1 code unit: A-Z and
    U+00C0..U+00DE (except U+00D7) move up by 0x20. *)
Definition lower_char (c : ascii) : ascii :=
  let n := N_of_ascii c in
  if ((65 <=? n) && (n <=? 90))%N
     || ((192 <=? n) && (n <=? 222) && negb (n =? 215))%N
  then ascii_of_N (n + 32)
  else c.

Fixpoint toLowerCase (s : string) : string :=
  match s with
  | EmptyString => EmptyString
  | String c s' => String (lower_char c) (toLowerCase s')
  end.

(** [s.replace(/x$/, '')] for a one-character pattern [x]: drop one
    trailing occurrence of [x]. *)
Fixpoint strip_trailing (x : ascii) (s : string) : string :=
  match s with
  | EmptyString => EmptyString
  | String c EmptyString => if Ascii.eqb c x then EmptyString else s
  | String c s' => String c (strip_trailing x s')
  end.

(** [s.replace(/\/$/, '')] *)
Definition strip_trailing_slash (s : string) : string := strip_trailing "/" s.

(** [s.split('/')]: the empty string splits into [[""]]. *)
Fixpoint split_slash (s : string) : list string :=
  match s with
  | EmptyString => [EmptyString]
  | String c s' =>
      let rest := split_slash s' in
      if is_slash c then EmptyString :: rest
      else match rest with
           | h :: t => String c h :: t
           | [] => [String c EmptyString]
           end
  end.

(** [parts.join('/')] *)
Definition join_slash (parts : list string) : string := String.concat "/" parts.

Definition is_digit (c : ascii) : bool :=
  let n := N_of_ascii c in ((48 <=? n) && (n <=? 57))%N.

(** [/^\d{4}$/.test(s)] *)
Definition is_year (s : string) : bool :=
  match s with
  | String a (String b (String c (String d EmptyString))) =>
      is_digit a && is_digit b && is_digit c && is_digit d
  | _ => false
  end.

(** [/^\d{1,2}$/.test(s)] *)
Definition is_month_day (s : string) : bool :=
  match s with
  | String a EmptyString => is_digit a
  | String a (String b EmptyString) => is_digit a && is_digit b
  | _ => false
  end.

(* ------------------------------------------------------------------ *)
(** ** [normalizeUrl] *)

(** The [for] loop of [normalizeUrl] over [parts]: a year followed by a
    month pushes both and skips a following day ([i += 2]) or not
    ([i += 1]), then [continue]s; a year not followed by a month is pushed
    at line 42 and falls through to line 55, which pushes it again. *)
Fixpoint fold_date_parts (parts : list string) : list string :=
  match parts with
  | [] => []
  | part :: rest =>
      if is_year part then
        match rest with
        | m :: rest' =>
            if is_month_day m then
              match rest' with
              | d :: rest'' =>
                  if is_month_day d then part :: m :: fold_date_parts rest''
                  else part :: m :: fold_date_parts rest'
              | [] => part :: m :: fold_date_parts rest'
              end
            else part :: part :: fold_date_parts rest
        | [] => part :: part :: fold_date_parts rest
        end
      else part :: fold_date_parts rest
  end.

Definition normalizeUrl (url : string) : string :=
  let urlLower := strip_trailing_slash (toLowerCase url) in
  let parts := split_slash urlLower in
  join_slash (fold_date_parts parts).

(* ------------------------------------------------------------------ *)
(** ** [parseInt(s, 10)] *)

(** A JavaScript Number as the program produces it: [NaN], an integral
    finite value [Int z] (whose value is a double; [Int 0] is +0), -0,
    and the two infinities ([Inf true] is -Infinity). *)
Inductive num := NaN | Int (z : Z) | NegZero | Inf (neg : bool).

(** StrWhiteSpaceChar and LineTerminator in the Latin-1 range. *)
Definition is_js_space (c : ascii) : bool :=
  let n := N_of_ascii c in
  ((n =? 9) || (n =? 10) || (n =? 11) || (n =? 12) || (n =? 13)
   || (n =? 32) || (n =? 160))%N.

Fixpoint trim_start (s : string) : string :=
  match s with
  | String c s' => if is_js_space c then trim_start s' else s
  | EmptyString => EmptyString
  end.

(** The longest prefix of decimal digits, read into [acc]; also returns
    the number of digits read. *)
Fixpoint read_digits (s : string) (acc : Z) (n : nat) : Z * nat :=
  match s with
  | String c s' =>
      if is_digit c
      then read_digits s' (10 * acc + (Z.of_N (N_of_ascii c) - 48))%Z (S n)
      else (acc, n)
  | EmptyString => (acc, n)
  end.

(** [a / b] rounded to the nearest integer, ties to the even one
    ([0 <= a], [0 < b]). *)
Definition div_round_even (a b : Z) : Z :=
  let q := (a / b)%Z in
  let r := (a mod b)%Z in
  if (b <? 2 * r)%Z || ((2 * r =? b)%Z && Z.odd q) then (q + 1)%Z else q.

(** The Number value of a nonnegative integer [m] (ECMAScript 6.1.6.1):
    the nearest double, ties to the even significand; [None] for
    +Infinity, the result when rounding reaches 2^1024.  Below 2^53 every
    integer is a double; from 2^e on (e >= 53) the doubles are the
    multiples of 2^(e-52). *)
Definition double_of_nat (m : Z) : option Z :=
  if (m <? 2 ^ 53)%Z then Some m
  else
    let sh := (Z.log2 m - 52)%Z in
    let v := (div_round_even m (2 ^ sh) * 2 ^ sh)%Z in
    if (v <? 2 ^ 1024)%Z then Some v else None.

(** Step 16 of parseInt: the sign applied to the Number value of the
    digits read, [v]; [-0] when the digits read are all zeros after a
    minus sign.  (The digits are read exactly: the approximation allowed
    beyond 20 significant digits is not taken.) *)
Definition signed_number (neg : bool) (v : Z) : num :=
  if (v =? 0)%Z then (if neg then NegZero else Int 0)
  else match double_of_nat v with
       | Some d => Int (if neg then (- d)%Z else d)
       | None => Inf neg
       end.

Definition parseInt (s : string) : num :=
  let s1 := trim_start s in
  let '(neg, s2) :=
    match s1 with
    | String c r =>
        if Ascii.eqb c "-"%char then (true, r)
        else if Ascii.eqb c "+"%char then (false, r)
        else (false, s1)
    | EmptyString => (false, EmptyString)
    end in
  let '(v, n) := read_digits s2 0%Z 0 in
  match n with
  | O => NaN
  | S _ => signed_number neg v
  end.

(* ------------------------------------------------------------------ *)
(** ** [csvToJson] *)

Module ViewRecord.
Record t := { title : string; views : num }.
End ViewRecord.

(** The object [viewsData]: its own properties in the order of their
    creation, and the record its prototype was set to, if any.  The only
    own properties are those the loop creates; an assignment
    [viewsData['__proto__'] = ...] (with no own [__proto__] property)
    runs the [Object.prototype.__proto__] setter, which makes the record
    the prototype of [viewsData] instead of adding a property. *)
Record views_data := {
  own : list (string * ViewRecord.t);
  proto : option ViewRecord.t
}.

Definition proto_key : string := "__proto__".

Fixpoint own_set (k : string) (v : ViewRecord.t) (l : list (string * ViewRecord.t))
  : list (string * ViewRecord.t) :=
  match l with
  | [] => [(k, v)]
  | (k', v') :: t => if String.eqb k k' then (k, v) :: t else (k', v') :: own_set k v t
  end.

Fixpoint own_get (k : string) (l : list (string * ViewRecord.t)) : option ViewRecord.t :=
  match l with
  | [] => None
  | (k', v') :: t => if String.eqb k k' then Some v' else own_get k t
  end.

(** [viewsData[k] = v]: an existing own property is overwritten in place,
    [__proto__] sets the prototype, any other key becomes a new own
    property, created last. *)
Definition js_set (k : string) (v : ViewRecord.t) (m : views_data) : views_data :=
  match own_get k (own m) with
  | Some _ => {| own := own_set k v (own m); proto := proto m |}
  | None =>
      if String.eqb k proto_key then {| own := own m; proto := Some v |}
      else {| own := own_set k v (own m); proto := proto m |}
  end.

(** [viewsData[k]] where it is a view record: an own property, or the
    prototype read through [__proto__]. *)
Definition js_get (k : string) (m : views_data) : option ViewRecord.t :=
  match own_get k (own m) with
  | Some v => Some v
  | None => if String.eqb k proto_key then proto m else None
  end.

(** The numeric value of a string of decimal digits. *)
Definition index_of (k : string) : Z := fst (read_digits k 0%Z 0).

(** An array index: a canonical numeric string ("0" or digits without a
    leading zero) of an integer at most 2^32 - 2. *)
Definition is_array_index (k : string) : bool :=
  match k with
  | EmptyString => false
  | String c rest =>
      forallb is_digit (list_ascii_of_string k)
      && (negb (Ascii.eqb c "0"%char) || String.eqb rest EmptyString)
      && (index_of k <=? 4294967294)%Z
  end.

Fixpoint insert_index (k : string) (l : list string) : list string :=
  match l with
  | [] => [k]
  | k' :: t => if (index_of k <=? index_of k')%Z then k :: l else k' :: insert_index k t
  end.

(** Array indices in ascending numeric order. *)
Fixpoint sort_indices (l : list string) : list string :=
  match l with
  | [] => []
  | k :: t => insert_index k (sort_indices t)
  end.

(** [Object.keys(viewsData)] (OrdinaryOwnPropertyKeys): the array-index
    keys in ascending numeric order, then the other keys in the order of
    their creation. *)
Definition object_keys (m : views_data) : list string :=
  let ks := map fst (own m) in
  (sort_indices (filter is_array_index ks) ++ filter (fun k => negb (is_array_index k)) ks)%list.

(** The double quote character, code 34. *)
Definition dquote : ascii := ascii_of_nat 34.

(** [s.replace(/^"|"$/g, '')]: a leading and a trailing double quote. *)
Definition strip_quotes (s : string) : string :=
  let s1 := match s with
            | String c r => if Ascii.eqb c dquote then r else s
            | EmptyString => EmptyString
            end in
  strip_trailing dquote s1.

Record csv_state := { viewsData : views_data; processed : nat; skipped : nat }.

(** One iteration of [for (const [title, views, url] of records)].  A row
    with fewer than three fields leaves [url] undefined, [url.replace]
    throws a TypeError, and the [catch] counts the row as skipped. *)
Definition csv_row_step (st : csv_state) (row : list string) : csv_state :=
  match row with
  | title :: views :: url :: _ =>
      let cleanUrl := strip_trailing_slash (strip_quotes url) in
      {| viewsData := js_set cleanUrl
                        {| ViewRecord.title := strip_quotes title;
                           ViewRecord.views := parseInt views |} (viewsData st);
         processed := S (processed st);
         skipped := skipped st |}
  | _ =>
      {| viewsData := viewsData st; processed := processed st;
         skipped := S (skipped st) |}
  end.

Definition csv_init : csv_state :=
  {| viewsData := {| own := []; proto := None |}; processed := 0; skipped := 0 |}.

(** [csvToJson] over the records returned by [parse] (an external
    library); returns the object together with the two counters it logs. *)
Definition csvToJson (records : list (list string)) : csv_state :=
  fold_left csv_row_step records csv_init.

(* ------------------------------------------------------------------ *)
(** ** [fetchWordPressPosts] *)

(** An item of [response.data]: [id], [title.rendered], [date], [link] and
    [_embedded?.author?.[0]?.name] ([None] when absent). *)
Record post := {
  post_id : Z;
  post_title_rendered : string;
  post_date : string;
  post_link : string;
  post_author_name : option string
}.

Module Entry.
Record t := {
  id : Z;
  title : string;
  publication_date : string;
  author : string;
  url : string;
  type : string;
  views : num
}.
End Entry.

(** The outcome of [await axios.get(...)]: the response's [data], or a
    rejection (network error, non-success status). *)
Inductive fetch_result :=
| Fetched (data : list post)
| FetchError (message : string).

(** [s.split('T')[0]] *)
Fixpoint before_T (s : string) : string :=
  match s with
  | EmptyString => EmptyString
  | String c s' => if Ascii.eqb c "T"%char then EmptyString else String c (before_T s')
  end.

Definition Z_to_string (z : Z) : string := NilEmpty.string_of_int (Z.to_int z).

(** Number::toString(x) for an integral x, 10^(d-1) <= x < 10^d: the
    candidates with k significant digits are the multiples of 10^(d-k)
    next to x; those whose Number value is x are kept, and the closer one
    is chosen, the one with the even significand on a tie. *)
Definition number_candidate (m : Z) (d k : nat) : option Z :=
  let u := (10 ^ Z.of_nat (d - k))%Z in
  let lo := (m / u * u)%Z in
  let hi := (lo + u)%Z in
  let ok v := match double_of_nat v with Some w => (w =? m)%Z | None => false end in
  match ok lo, ok hi with
  | true, true =>
      Some (if (m - lo <? hi - m)%Z then lo
            else if (hi - m <? m - lo)%Z then hi
            else if Z.even (m / u) then lo else hi)
  | true, false => Some lo
  | false, true => Some hi
  | false, false => None
  end.

Fixpoint shortest_from (m : Z) (d : nat) (ks : list nat) : Z :=
  match ks with
  | [] => m
  | k :: ks' =>
      match number_candidate m d k with
      | Some v => v
      | None => shortest_from m d ks'
      end
  end.

(** The value s * 10^(n-k) of step 5 of Number::toString, for a positive
    integral Number [m]: k as small as possible. *)
Definition shortest_value (m : Z) : Z :=
  let d := String.length (Z_to_string m) in
  shortest_from m d (seq 1 d).

(** s: the value without its trailing zeros. *)
Fixpoint strip_zeros (fuel : nat) (v : Z) : Z :=
  match fuel with
  | O => v
  | S f => if ((v mod 10 =? 0) && negb (v =? 0))%Z then strip_zeros f (v / 10)%Z else v
  end.

(** Steps 6 and 10 of Number::toString for a positive integral Number:
    when n <= 21 (the value is below 10^21) the k digits of s followed by
    n - k zeros, which are the decimal digits of the value; otherwise the
    first digit of s, a dot and the others if k > 1, then [e+] and
    n - 1. *)
Definition positive_to_string (m : Z) : string :=
  let v := shortest_value m in
  if (v <? 10 ^ 21)%Z then Z_to_string v
  else
    let n := String.length (Z_to_string v) in
    let e := "e+" ++ Z_to_string (Z.of_nat n - 1) in
    match Z_to_string (strip_zeros n v) with
    | String c EmptyString => String c e
    | String c rest => String c ("." ++ rest ++ e)
    | EmptyString => e
    end.

(** [`${n}`], i.e. Number::toString(n, 10). *)
Definition num_to_string (n : num) : string :=
  match n with
  | NaN => "NaN"
  | NegZero => "0"
  | Inf false => "Infinity"
  | Inf true => "-Infinity"
  | Int z =>
      if (z =? 0)%Z then "0"
      else if (z <? 0)%Z then "-" ++ positive_to_string (- z)
      else positive_to_string z
  end.

(** Whether [z] is the value of a Number: its magnitude is a double. *)
Definition is_int_number (z : Z) : bool :=
  match double_of_nat (Z.abs z) with Some w => (w =? Z.abs z)%Z | None => false end.


Section Fetcher.

(** [axios.get(endpoint, { params })] *)
Variable axios_get : string -> list (string * string) -> fetch_result.
(** [new Date(s).toISOString()]: [None] when the date is invalid and
    [toISOString] throws a RangeError. *)
Variable toISOString : string -> option string.

(** [Object.keys(viewsData).find(url => normalizeUrl(url) === normalizedPostUrl)] *)
Definition find_matched_url (vd : views_data) (normalizedPostUrl : string)
  : option string :=
  find (fun k => String.eqb (normalizeUrl k) normalizedPostUrl) (object_keys vd).

(** [matchedUrl ? viewsData[matchedUrl].views : 0]; the empty key is
    falsy.  [None] would be the TypeError of reading [.views] of
    [undefined]. *)
Definition post_views (vd : views_data) (postUrl : string) : option num :=
  match find_matched_url vd (normalizeUrl postUrl) with
  | Some matchedUrl =>
      if String.eqb matchedUrl EmptyString then Some (Int 0)
      else option_map ViewRecord.views (js_get matchedUrl vd)
  | None => Some (Int 0)
  end.

(** [post._embedded?.author?.[0]?.name || 'Unknown'] *)
Definition author_or_unknown (name : option string) : string :=
  match name with
  | Some n => if String.eqb n EmptyString then "Unknown" else n
  | None => "Unknown"
  end.

(** The body of [for (const post of response.data)] up to the push;
    [None] when it throws. *)
Definition make_entry (vd : views_data) (postType : string) (p : post)
  : option Entry.t :=
  match post_views vd (post_link p) with
  | None => None
  | Some v =>
      match toISOString (post_date p) with
      | None => None
      | Some iso =>
          Some {| Entry.id := post_id p;
                  Entry.title := post_title_rendered p;
                  Entry.publication_date := before_T iso;
                  Entry.author := author_or_unknown (post_author_name p);
                  Entry.url := post_link p;
                  Entry.type := postType;
                  Entry.views := v |}
      end
  end.

(** The inner loop: entries are pushed onto [allPosts] one by one; an
    exception leaves the loop (to the [catch]) with what was pushed. *)
Fixpoint push_posts (vd : views_data) (postType : string) (data : list post)
  (allPosts : list Entry.t) : list Entry.t :=
  match data with
  | [] => allPosts
  | p :: ps =>
      match make_entry vd postType p with
      | Some e => push_posts vd postType ps (allPosts ++ [e])
      | None => allPosts
      end
  end.

Definition request_params (page perPage : Z) (afterDate : option string)
  : list (string * string) :=
  [("page", num_to_string (Int page)); ("per_page", num_to_string (Int perPage));
   ("_embed", "true")]
  ++ match afterDate with Some d => [("after", d)] | None => [] end.

(** One iteration of [for (const postType of postTypes)] with its
    [try]/[catch]: a rejected request adds nothing. *)
Definition fetch_category (baseUrl : string) (afterDate : option string)
  (page perPage : Z) (vd : views_data) (allPosts : list Entry.t)
  (postType : string) : list Entry.t :=
  match axios_get (baseUrl ++ "/wp-json/wp/v2/" ++ postType)
          (request_params page perPage afterDate) with
  | FetchError _ => allPosts
  | Fetched data => push_posts vd postType data allPosts
  end.

(** [afterDate] is given by its [toISOString()]. *)
Definition fetchWordPressPosts (baseUrl : string) (postTypes : list string)
  (afterDate : option string) (page perPage : Z) (vd : views_data)
  : list Entry.t :=
  fold_left (fetch_category baseUrl afterDate page perPage vd) postTypes [].

(** The entries one category contributes: none when its request is
    rejected, otherwise those built from its response. *)
Definition category_entries (baseUrl : string) (afterDate : option string)
    (page perPage : Z) (vd : views_data) (postType : string) : list Entry.t :=
  match axios_get (baseUrl ++ "/wp-json/wp/v2/" ++ postType)
          (request_params page perPage afterDate) with
  | FetchError _ => []
  | Fetched data => push_posts vd postType data []
  end.

Definition category_fetched (baseUrl : string) (afterDate : option string)
    (page perPage : Z) (postType : string) : bool :=
  match axios_get (baseUrl ++ "/wp-json/wp/v2/" ++ postType)
          (request_params page perPage afterDate) with
  | FetchError _ => false
  | Fetched _ => true
  end.

End Fetcher.

(* ------------------------------------------------------------------ *)
(** ** [generateMarkdownOutput] *)

(** [title.replace(/\|/g, '&#124;')] *)
Fixpoint escape_pipes (s : string) : string :=
  match s with
  | EmptyString => EmptyString
  | String c s' =>
      if Ascii.eqb c "|"%char then "&#124;" ++ escape_pipes s'
      else String c (escape_pipes s')
  end.

Definition render_row (p : Entry.t) : string :=
  let safeTitle := "[" ++ escape_pipes (Entry.title p) ++ "](" ++ Entry.url p ++ ")" in
  "| " ++ Entry.publication_date p ++ " | " ++ safeTitle ++ " | " ++ Entry.author p
  ++ " | " ++ Entry.type p ++ " | " ++ num_to_string (Entry.views p) ++ " | "
  ++ num_to_string (Int (Entry.id p)) ++ " |".

Definition markdown_header (inputDate : string) : list string :=
  ["# Dev Blog News";
   "## Posts Published After " ++ inputDate;
   EmptyString;
   "| Date | Title | Author | Type | Views | Post ID |";
   "|------|-------|--------|------|-------|----------|"].

Definition newline : string := String (ascii_of_nat 10) EmptyString.

(** [a.publication_date.localeCompare(b.publication_date)], taken as the
    code-unit order: on the [YYYY-MM-DD] strings this program compares,
    collation and code-unit order agree. *)
Definition localeCompare (a b : string) : comparison := String.compare a b.

Definition date_cmp (a b : Entry.t) : comparison :=
  localeCompare (Entry.publication_date a) (Entry.publication_date b).

(** [Array.prototype.sort] is stable; with a consistent comparator its
    result is the stable sort, computed here by insertion. *)
Fixpoint insert_by_date (x : Entry.t) (l : list Entry.t) : list Entry.t :=
  match l with
  | [] => [x]
  | y :: ys =>
      match date_cmp x y with
      | Gt => y :: insert_by_date x ys
      | _ => x :: y :: ys
      end
  end.

Fixpoint sort_by_date (l : list Entry.t) : list Entry.t :=
  match l with
  | [] => []
  | x :: xs => insert_by_date x (sort_by_date xs)
  end.

(** Arrays live in a store; [posts] is a reference to one, shared with
    the caller. *)
Definition heap := nat -> list Entry.t.

Definition heap_set (h : heap) (r : nat) (a : list Entry.t) : heap :=
  fun r' => if Nat.eqb r' r then a else h r'.

(** [posts.sort(...)] sorts the caller's array in place and returns it. *)
Definition generateMarkdownOutput (h : heap) (posts : nat) (inputDate : string)
  : string * heap :=
  let sortedPosts := sort_by_date (h posts) in
  let h' := heap_set h posts sortedPosts in
  (String.concat newline (markdown_header inputDate ++ map render_row sortedPosts), h').

(* ------------------------------------------------------------------ *)
(** ** The report filename in [main] *)

(** Kept by [/[^a-z0-9-_]/gi]: ASCII letters of either case, digits, [-]
    and [_]. *)
Definition filename_char (c : ascii) : bool :=
  let n := N_of_ascii c in
  ((65 <=? n) && (n <=? 90))%N || ((97 <=? n) && (n <=? 122))%N
  || is_digit c || (n =? 45)%N || (n =? 95)%N.

Fixpoint remove_unsafe (s : string) : string :=
  match s with
  | EmptyString => EmptyString
  | String c s' => if filename_char c then String c (remove_unsafe s') else remove_unsafe s'
  end.

(** [`devblognews-${dateInput || 'all'}`.replace(/[^a-z0-9-_]/gi, '')] *)
Definition safeFilename (dateInput : string) : string :=
  remove_unsafe ("devblognews-" ++ (if String.eqb dateInput EmptyString then "all" else dateInput)).

(** [`${safeFilename}.md`] *)
Definition report_filename (dateInput : string) : string := safeFilename dateInput ++ ".md".

(* ------------------------------------------------------------------ *)
(** ** [parseDateInput] and [main] *)

Definition BASE_URL : string := "https://developer.wordpress.org/news".

Definition POST_TYPES : list string := ["snippets"; "dev-blog-videos"; "posts"].

Definition CSV_FILE : string :=
  "developer.wordpress.org__news-posts-week-09_30_2024-10_06_2024.csv".

(** The requests [fetchWordPressPosts] issues: one [axios.get] per post
    type, in order, whatever the earlier ones returned. *)
Definition fetch_requests (baseUrl : string) (postTypes : list string)
    (afterDate : option string) (page perPage : Z) : list (string * list (string * string)) :=
  map (fun postType => (baseUrl ++ "/wp-json/wp/v2/" ++ postType,
                        request_params page perPage afterDate)) postTypes.

(** What [main] does to the outside world, in order; [console] output is
    left out. *)
Inductive effect :=
| WriteFile (path content : string)
| HttpGet (url : string) (params : list (string * string))
| Exit (code : nat).

(** [process.argv[2] || ''] *)
Definition date_input (argv2 : option string) : string :=
  match argv2 with Some s => s | None => EmptyString end.

Section Main.

Variable axios_get : string -> list (string * string) -> fetch_result.
Variable toISOString : string -> option string.
(** [new Date(s)] followed by its [toISOString()]: [None] for an invalid
    date, whose [getTime()] is [NaN]. *)
Variable new_Date : string -> option string.
(** [fs.readFile(path, 'utf-8')]: [None] when it rejects. *)
Variable readFile : string -> option string.
(** [parse(csvContent, { columns: false, skip_empty_lines: true })]:
    [None] when it throws. *)
Variable csv_parse : string -> option (list (list string)).
(** [JSON.stringify(viewsData, null, 2)] *)
Variable json_stringify : views_data -> string.
(** [fs.writeFile(path, data)]: [false] when it rejects. *)
Variable writeFile_ok : string -> string -> bool.

(** [parseDateInput]: the date, or [None] where it throws. *)
Definition parseDateInput (dateStr : string) : option string := new_Date dateStr.

(** [afterDate] as [main] computes it from [dateInput]: [null] for the
    empty string, else the parsed date; [None] where [main] exits. *)
Definition resolve_after_date (dateInput : string) : option (option string) :=
  if String.eqb dateInput EmptyString then Some None
  else option_map Some (parseDateInput dateInput).

(** [main(process.argv[2])]: every exception reaches the outer [catch],
    which calls [process.exit(1)]; [process.exit] ends the run. *)
Definition main (argv2 : option string) : list effect :=
  match readFile CSV_FILE with
  | None => [Exit 1]
  | Some csvContent =>
      match csv_parse csvContent with
      | None => [Exit 1]
      | Some records =>
          let viewsData := viewsData (csvToJson records) in
          let json := json_stringify viewsData in
          WriteFile "views_data.json" json ::
          if negb (writeFile_ok "views_data.json" json) then [Exit 1] else
          let dateInput := date_input argv2 in
          match resolve_after_date dateInput with
          | None => [Exit 1]
          | Some afterDate =>
              (map (fun r => HttpGet (fst r) (snd r))
                   (fetch_requests BASE_URL POST_TYPES afterDate 1 100)
               ++ let posts := fetchWordPressPosts axios_get toISOString BASE_URL POST_TYPES
                                 afterDate 1 100 viewsData in
                  match posts with
                  | [] => []
                  | _ :: _ =>
                      let label := if String.eqb dateInput EmptyString then "all"
                                   else dateInput in
                      let markdown := fst (generateMarkdownOutput (fun _ => posts) 0 label) in
                      let name := report_filename dateInput in
                      WriteFile name markdown ::
                      (if writeFile_ok name markdown then [] else [Exit 1])
                  end)%list
          end
      end
  end.

End Main.

(* ------------------------------------------------------------------ *)
(** ** Predicates used to state properties of [normalizeUrl] *)

Fixpoint has_slash (s : string) : bool :=
  match s with
  | EmptyString => false
  | String c s' => is_slash c || has_slash s'
  end.

Fixpoint ends_with_slash (s : string) : bool :=
  match s with
  | EmptyString => false
  | String c EmptyString => is_slash c
  | String _ s' => ends_with_slash s'
  end.

(** The segments scanned by [normalizeUrl] are "well dated" when every
    four-digit segment starts a year/month group and no one- or two-digit
    segment directly follows a year/month/day group. *)
Fixpoint well_dated (parts : list string) : bool :=
  match parts with
  | [] => true
  | part :: rest =>
      if is_year part then
        match rest with
        | m :: rest' =>
            if is_month_day m then
              match rest' with
              | d :: rest'' =>
                  if is_month_day d then
                    match rest'' with
                    | x :: _ => negb (is_month_day x) && well_dated rest''
                    | [] => true
                    end
                  else well_dated rest'
              | [] => true
              end
            else false
        | [] => false
        end
      else well_dated rest
  end.

(** A joined list of segments ends in a slash exactly when it has at
    least two segments and the last one is empty. *)
Definition seg_trailing (L : list string) : bool :=
  match L with
  | _ :: _ :: _ => String.eqb (last L EmptyString) EmptyString
  | _ => false
  end.

(** What follows the first joining slash, as [normalizeUrl] splits it. *)
Definition tail_parts (T : list string) : list string :=
  let z := toLowerCase (join_slash T) in
  if String.eqb z EmptyString then [] else split_slash (strip_trailing_slash z).

(** The key and the record a row with at least three fields assigns. *)
Definition row_entry (row : list string) : option (string * ViewRecord.t) :=
  match row with
  | title :: views :: url :: _ =>
      Some (strip_trailing_slash (strip_quotes url),
            {| ViewRecord.title := strip_quotes title; ViewRecord.views := parseInt views |})
  | _ => None
  end.

(** The two rows of the spec's round-trip example. *)
Definition row_title_a : list string := ["Title A"; "42"; "https://x.com/a/"].
Definition row_title_b : list string := ["Title B"; "not-a-number"; "https://x.com/b"].

(** Ascending publication date, as the comparator orders it. *)
Definition date_le (a b : Entry.t) : Prop := date_cmp a b <> Gt.

Definition same_date (d : string) (e : Entry.t) : bool :=
  String.eqb (Entry.publication_date e) d.

(** A report entry dated [date] with id [n]. *)
Definition entry_on (date : string) (n : Z) : Entry.t :=
  {| Entry.id := n; Entry.title := "Post"; Entry.publication_date := date;
     Entry.author := "Unknown"; Entry.url := "https://x.com/p"; Entry.type := "posts";
     Entry.views := Int 0 |}.

(** Whether a string starts with a decimal digit. *)
Definition digit_start (t : string) : bool :=
  match t with String c _ => is_digit c | EmptyString => false end.

(** The number of occurrences of a character in a string. *)
Fixpoint count_char (x : ascii) (s : string) : nat :=
  match s with
  | EmptyString => 0
  | String c s' => (if Ascii.eqb c x then 1 else 0) + count_char x s'
  end.

(** A list of keys without repetitions, each at its first occurrence. *)
Definition first_keys (ks : list string) : list string :=
  fold_left (fun acc k => if existsb (String.eqb k) acc then acc else (acc ++ [k])%list) ks [].

(** The URL key a row assigns, if any. *)
Definition row_key (row : list string) : option string := option_map fst (row_entry row).

(** The effects of a run of [main] end with its exit, if it has one, and
    that exit is [process.exit(1)]. *)
Definition exits_last (effs : list effect) : Prop :=
  forall pre code post, effs = (pre ++ Exit code :: post)%list -> code = 1 /\ post = [].

(** The object [{}]. *)
Definition empty_views : views_data := {| own := []; proto := None |}.

(** Views data whose own keys were created in the order
    ["https://x.com/a/"], ["7"], ["https://x.com/a"]. *)
Definition views_sample : views_data :=
  {| own := [("https://x.com/a/", {| ViewRecord.title := "A"; ViewRecord.views := Int 42 |});
             ("7", {| ViewRecord.title := "B"; ViewRecord.views := Int 5 |});
             ("https://x.com/a", {| ViewRecord.title := "A2"; ViewRecord.views := Int 1 |})];
     proto := None |}.

(** A CSV row for the site root and a post whose link is the root. *)
Definition row_root : list string := ["Home"; "9"; "/"].
Definition post_root : post :=
  {| post_id := 1; post_title_rendered := "Home"; post_date := "2024-10-01T09:00:00";
     post_link := "/"; post_author_name := None |}.

(** Two posts of a REST response: one dated, one whose date is invalid. *)
Definition post_hello : post :=
  {| post_id := 7; post_title_rendered := "Hello"; post_date := "2024-10-01T09:00:00";
     post_link := "https://x.com/2024/10/hello/"; post_author_name := Some "Ann" |}.
Definition post_undated : post :=
  {| post_id := 8; post_title_rendered := "Soon"; post_date := "soon";
     post_link := "https://x.com/soon/"; post_author_name := None |}.

(** A [new Date(s).toISOString()] that rejects [soon]. *)
Definition iso_stub (s : string) : option string :=
  if String.eqb s "soon" then None else Some (s ++ ".000Z").

(* ------------------------------------------------------------------ *)
(** * Lemmas on the string primitives *)

Example normalizeUrl_fold_ex :
  normalizeUrl "https://x.com/2024/12/03/post" = "https://x.com/2024/12/post".
Proof. reflexivity. Qed.

Example normalizeUrl_case_ex :
  normalizeUrl "HTTP://X.com/A/" = normalizeUrl "http://x.com/a".
Proof. reflexivity. Qed.

Example normalizeUrl_year_only_ex :
  normalizeUrl "https://x.com/2024" = "https://x.com/2024/2024".
Proof. reflexivity. Qed.

Example parseInt_ex1 : parseInt " -42px" = Int (-42)%Z. Proof. reflexivity. Qed.

Example parseInt_ex2 : parseInt "not-a-number" = NaN. Proof. reflexivity. Qed.

Example strip_quotes_ex :
  strip_quotes (String dquote (String "a" (String dquote EmptyString))) = "a".
Proof. reflexivity. Qed.

Lemma lower_char_idem (c : ascii) : lower_char (lower_char c) = lower_char c.
Proof. destruct c as [[] [] [] [] [] [] [] []]; reflexivity. Qed.

Lemma lower_char_slash (c : ascii) : is_slash (lower_char c) = is_slash c.
Proof. destruct c as [[] [] [] [] [] [] [] []]; reflexivity. Qed.

Lemma lower_char_digit (c : ascii) : is_digit (lower_char c) = is_digit c.
Proof. destruct c as [[] [] [] [] [] [] [] []]; reflexivity. Qed.

Lemma toLowerCase_app (a b : string) :
  toLowerCase (a ++ b) = toLowerCase a ++ toLowerCase b.
Proof. induction a as [|c a IH]; simpl; [reflexivity | now rewrite IH]. Qed.

Lemma toLowerCase_idem (s : string) : toLowerCase (toLowerCase s) = toLowerCase s.
Proof. induction s as [|c s IH]; simpl; [reflexivity | now rewrite lower_char_idem, IH]. Qed.

Lemma is_year_lower (s : string) : is_year (toLowerCase s) = is_year s.
Proof.
  destruct s as [|a [|b [|c [|d [|e s]]]]]; simpl; try reflexivity.
  now rewrite !lower_char_digit.
Qed.

Lemma is_month_day_lower (s : string) : is_month_day (toLowerCase s) = is_month_day s.
Proof.
  destruct s as [|a [|b [|c s]]]; simpl; try reflexivity; now rewrite !lower_char_digit.
Qed.

Lemma split_slash_nonempty (s : string) : split_slash s <> [].
Proof.
  destruct s as [|c s]; simpl; [discriminate|].
  destruct (is_slash c); [discriminate|]. destruct (split_slash s); discriminate.
Qed.

Lemma split_slash_no_slash (s : string) : has_slash s = false -> split_slash s = [s].
Proof.
  induction s as [|c s IH]; simpl; [reflexivity|].
  intros H. apply orb_false_iff in H as [Hc Hs]. rewrite Hc, (IH Hs). reflexivity.
Qed.

Lemma split_slash_app (x t : string) :
  split_slash (x ++ String "/" t) = (split_slash x ++ split_slash t)%list.
Proof.
  induction x as [|c x IH]; simpl; [reflexivity|].
  rewrite IH. destruct (is_slash c); [reflexivity|].
  destruct (split_slash x) eqn:E; [now destruct (split_slash_nonempty x)|].
  reflexivity.
Qed.

Lemma split_slash_segments (s : string) :
  Forall (fun x => has_slash x = false) (split_slash s).
Proof.
  induction s as [|c s IH]; simpl; [now repeat constructor|].
  destruct (is_slash c) eqn:Hc; [now constructor|].
  destruct (split_slash s) as [|h t] eqn:E; [now destruct (split_slash_nonempty s)|].
  inversion IH; subst. constructor; [simpl; now rewrite Hc|assumption].
Qed.

Lemma split_slash_lowered (s : string) :
  toLowerCase s = s -> Forall (fun x => toLowerCase x = x) (split_slash s).
Proof.
  induction s as [|c s IH]; simpl; [now repeat constructor|].
  intros H. injection H as Hc Hs. specialize (IH Hs).
  destruct (is_slash c); [now constructor|].
  destruct (split_slash s) as [|h t] eqn:E; [now destruct (split_slash_nonempty s)|].
  inversion IH; subst. constructor; [simpl; congruence|assumption].
Qed.

Lemma str_app_assoc (a b c : string) : a ++ b ++ c = (a ++ b) ++ c.
Proof. induction a as [|x a IH]; simpl; [reflexivity | now rewrite IH]. Qed.

Lemma join_slash_cons2 (x y : string) (l : list string) :
  join_slash (x :: y :: l) = x ++ String "/" (join_slash (y :: l)).
Proof. reflexivity. Qed.

Lemma join_slash_app (A B : list string) :
  A <> [] -> B <> [] -> join_slash (A ++ B)%list = join_slash A ++ String "/" (join_slash B).
Proof.
  intros HA HB. induction A as [|x A IH]; [congruence|].
  destruct A as [|y A].
  - simpl. destruct B; [congruence|]. reflexivity.
  - simpl app. rewrite (join_slash_cons2 x y (A ++ B)), (join_slash_cons2 x y A).
    rewrite <- str_app_assoc. simpl String.append at 2.
    now rewrite <- IH by discriminate.
Qed.

Lemma split_join (L : list string) :
  L <> [] -> Forall (fun x => has_slash x = false) L -> split_slash (join_slash L) = L.
Proof.
  induction L as [|x L IH]; [congruence|]. intros _ HF. inversion HF; subst.
  destruct L as [|y L].
  - now apply split_slash_no_slash.
  - rewrite join_slash_cons2, split_slash_app, split_slash_no_slash by assumption.
    simpl. f_equal. apply IH; [discriminate|assumption].
Qed.

Lemma toLowerCase_join (L : list string) :
  toLowerCase (join_slash L) = join_slash (map toLowerCase L).
Proof.
  induction L as [|x L IH]; [reflexivity|].
  destruct L as [|y L]; [reflexivity|].
  rewrite join_slash_cons2, toLowerCase_app. simpl map. rewrite join_slash_cons2.
  simpl. now rewrite IH.
Qed.

Lemma join_split (s : string) : join_slash (split_slash s) = s.
Proof.
  induction s as [|c s IH]; [reflexivity|]. simpl.
  destruct (split_slash s) as [|h t] eqn:E; [now destruct (split_slash_nonempty s)|].
  destruct (is_slash c) eqn:Hc.
  - rewrite join_slash_cons2, IH. simpl. f_equal.
    symmetry. now apply Ascii.eqb_eq.
  - destruct t as [|h' t].
    + unfold join_slash in IH |- *. simpl in IH |- *. now rewrite IH.
    + rewrite join_slash_cons2 in IH |- *. simpl. now rewrite IH.
Qed.

Lemma strip_trailing_cons (x c : ascii) (s : string) :
  s <> EmptyString -> strip_trailing x (String c s) = String c (strip_trailing x s).
Proof. destruct s; [congruence|reflexivity]. Qed.

Lemma strip_no_end (s : string) :
  ends_with_slash s = false -> strip_trailing_slash s = s.
Proof.
  unfold strip_trailing_slash.
  induction s as [|c s IH]; [reflexivity|].
  destruct s as [|c' s].
  - simpl. intros H. unfold is_slash in H. now rewrite H.
  - intros H. rewrite strip_trailing_cons by discriminate. f_equal. now apply IH.
Qed.

Lemma no_slash_no_end (s : string) : has_slash s = false -> ends_with_slash s = false.
Proof.
  induction s as [|c s IH]; [reflexivity|]. simpl.
  intros H. apply orb_false_iff in H as [Hc Hs].
  destruct s; [exact Hc | now apply IH].
Qed.

Lemma strip_app_slash (X Y : string) :
  strip_trailing_slash (X ++ String "/" Y)
  = if String.eqb Y EmptyString then X else X ++ String "/" (strip_trailing_slash Y).
Proof.
  unfold strip_trailing_slash.
  induction X as [|c X IH].
  - destruct Y; reflexivity.
  - simpl String.append. rewrite strip_trailing_cons by (destruct X; discriminate).
    rewrite IH. destruct (String.eqb Y EmptyString); reflexivity.
Qed.

Lemma ends_app_slash (X Y : string) :
  ends_with_slash (X ++ String "/" Y)
  = if String.eqb Y EmptyString then true else ends_with_slash Y.
Proof.
  induction X as [|c X IH].
  - destruct Y; reflexivity.
  - simpl String.append. rewrite <- IH. destruct X; reflexivity.
Qed.

Lemma ends_join (L : list string) :
  Forall (fun x => has_slash x = false) L ->
  ends_with_slash (join_slash L) = seg_trailing L.
Proof.
  induction L as [|x L IH]; [reflexivity|]. intros HF. inversion HF; subst.
  destruct L as [|y L]; [now apply no_slash_no_end|].
  rewrite join_slash_cons2, ends_app_slash, IH by assumption.
  destruct L as [|z L].
  - unfold join_slash. simpl. now destruct (String.eqb y EmptyString).
  - assert (Hne : join_slash (y :: z :: L) <> EmptyString)
      by (rewrite join_slash_cons2; destruct y; discriminate).
    apply String.eqb_neq in Hne. rewrite Hne. reflexivity.
Qed.

(* ------------------------------------------------------------------ *)
(** * Lemmas on the scan of [normalizeUrl] *)

Lemma list_strong_ind (P : list string -> Prop) :
  (forall l, (forall l', length l' < length l -> P l') -> P l) -> forall l, P l.
Proof.
  intros H. apply (induction_ltof1 _ (@length string)).
  intros l IH. apply H. exact IH.
Qed.

Lemma fold_date_parts_head (p : string) (rest : list string) :
  exists t, fold_date_parts (p :: rest) = p :: t.
Proof.
  simpl. destruct (is_year p); [|eauto].
  destruct rest as [|m rest']; [eauto|].
  destruct (is_month_day m); [|eauto].
  destruct rest' as [|d rest'']; [eauto|].
  destruct (is_month_day d); eauto.
Qed.

Lemma fold_date_parts_nonempty (L : list string) : L <> [] -> fold_date_parts L <> [].
Proof.
  destruct L as [|p rest]; [congruence|]. intros _.
  destruct (fold_date_parts_head p rest) as [t ->]. discriminate.
Qed.

Lemma fold_date_parts_incl (L : list string) (x : string) :
  In x (fold_date_parts L) -> In x L.
Proof.
  revert x. induction L as [L IH] using list_strong_ind. intros x.
  destruct L as [|p rest]; [easy|]. simpl.
  destruct (is_year p).
  - destruct rest as [|m rest'].
    + simpl. intuition.
    + destruct (is_month_day m).
      * destruct rest' as [|d rest''].
        -- simpl. intuition.
        -- destruct (is_month_day d); simpl; intros [H|[H|H]];
             try (now left); try (now right; left).
           ++ right; right; right. apply (IH rest''); [simpl; lia|exact H].
           ++ right; right. apply (IH (d :: rest'')); [simpl; lia|exact H].
      * simpl. intros [H|[H|H]]; try (now left).
        right. apply (IH (m :: rest')); [simpl; lia|exact H].
  - simpl. intros [H|H]; [now left|].
    right. apply (IH rest); [simpl; lia|exact H].
Qed.

Lemma year_not_month_day (s : string) : is_year s = true -> is_month_day s = false.
Proof. destruct s as [|a [|b [|c [|d [|e s]]]]]; easy. Qed.

Lemma month_day_nonempty (s : string) : is_month_day s = true -> s <> EmptyString.
Proof. destruct s; easy. Qed.

Lemma year_nonempty (s : string) : is_year s = true -> s <> EmptyString.
Proof. destruct s; easy. Qed.

Lemma fold_date_parts_lower (L : list string) :
  fold_date_parts (map toLowerCase L) = map toLowerCase (fold_date_parts L).
Proof.
  induction L as [L IH] using list_strong_ind.
  destruct L as [|p rest]; [reflexivity|]. cbn [map fold_date_parts].
  rewrite is_year_lower. destruct (is_year p).
  2:{ cbn [map]. f_equal. apply IH. simpl. lia. }
  destruct rest as [|m rest']; [reflexivity|]. cbn [map].
  rewrite is_month_day_lower. destruct (is_month_day m).
  - destruct rest' as [|d rest'']; [reflexivity|]. cbn [map].
    rewrite is_month_day_lower. destruct (is_month_day d); cbn [map]; do 2 f_equal.
    + apply IH. simpl. lia.
    + apply (IH (d :: rest'')). simpl. lia.
  - cbn [map]. do 2 f_equal. apply (IH (m :: rest')). simpl. lia.
Qed.

(** [fold_date_parts] keeps a non-empty last segment non-empty. *)
Lemma fold_date_parts_last (L : list string) :
  L <> [] -> last L EmptyString <> EmptyString ->
  last (fold_date_parts L) EmptyString <> EmptyString.
Proof.
  induction L as [L IH] using list_strong_ind.
  destruct L as [|p rest]; [congruence|]. intros _ Hl. simpl fold_date_parts.
  destruct (is_year p) eqn:Hy.
  - destruct rest as [|m rest']; [exact Hl|].
    destruct (is_month_day m) eqn:Hm.
    + destruct rest' as [|d rest'']; [now apply month_day_nonempty|].
      destruct (is_month_day d) eqn:Hd.
      * destruct rest'' as [|q t]; [now apply month_day_nonempty|].
        destruct (fold_date_parts_head q t) as [u Hu]. rewrite Hu.
        change (last (q :: u) EmptyString <> EmptyString).
        rewrite <- Hu. apply IH; [simpl; lia|discriminate|exact Hl].
      * destruct (fold_date_parts_head d rest'') as [u Hu]. rewrite Hu.
        change (last (d :: u) EmptyString <> EmptyString).
        rewrite <- Hu. apply IH; [simpl; lia|discriminate|exact Hl].
    + destruct (fold_date_parts_head m rest') as [u Hu]. rewrite Hu.
      change (last (m :: u) EmptyString <> EmptyString).
      rewrite <- Hu. apply IH; [simpl; lia|discriminate|exact Hl].
  - destruct rest as [|q t]; [exact Hl|].
    destruct (fold_date_parts_head q t) as [u Hu]. rewrite Hu.
    change (last (q :: u) EmptyString <> EmptyString).
    rewrite <- Hu. apply IH; [simpl; lia|discriminate|exact Hl].
Qed.

Section FoldEquations.
Variables (p m x : string) (r : list string).

Lemma fold_year_month_day :
  is_year p = true -> is_month_day m = true -> is_month_day x = true ->
  fold_date_parts (p :: m :: x :: r) = p :: m :: fold_date_parts r.
Proof. intros H1 H2 H3. simpl. now rewrite H1, H2, H3. Qed.

Lemma fold_year_month :
  is_year p = true -> is_month_day m = true -> is_month_day x = false ->
  fold_date_parts (p :: m :: x :: r) = p :: m :: fold_date_parts (x :: r).
Proof. intros H1 H2 H3. simpl fold_date_parts at 1. now rewrite H1, H2, H3. Qed.

Lemma fold_year_month_end :
  is_year p = true -> is_month_day m = true -> fold_date_parts [p; m] = [p; m].
Proof. intros H1 H2. simpl. now rewrite H1, H2. Qed.

Lemma fold_year_alone :
  is_year p = true -> is_month_day m = false ->
  fold_date_parts (p :: m :: r) = p :: p :: fold_date_parts (m :: r).
Proof. intros H1 H2. simpl fold_date_parts at 1. now rewrite H1, H2. Qed.

Lemma fold_year_last : is_year p = true -> fold_date_parts [p] = [p; p].
Proof. intros H1. simpl. now rewrite H1. Qed.

Lemma fold_not_year :
  is_year p = false -> fold_date_parts (p :: r) = p :: fold_date_parts r.
Proof. intros H1. simpl fold_date_parts at 1. now rewrite H1. Qed.
End FoldEquations.

(** On well-dated segments the scan is a fixed point of itself. *)
Lemma fold_date_parts_idem (L : list string) :
  well_dated L = true -> fold_date_parts (fold_date_parts L) = fold_date_parts L.
Proof.
  induction L as [L IH] using list_strong_ind.
  destruct L as [|p rest]; [reflexivity|]. intros Hw. simpl in Hw.
  destruct (is_year p) eqn:Hy.
  - destruct rest as [|m rest']; [discriminate|].
    destruct (is_month_day m) eqn:Hm; [|discriminate].
    destruct rest' as [|d rest''].
    + now rewrite !fold_year_month_end.
    + destruct (is_month_day d) eqn:Hd.
      * rewrite fold_year_month_day by assumption.
        destruct rest'' as [|x t].
        -- now rewrite fold_year_month_end.
        -- apply andb_prop in Hw as [Hx Hw]. apply negb_true_iff in Hx.
           destruct (fold_date_parts_head x t) as [u Hu]. rewrite Hu.
           rewrite fold_year_month by assumption. rewrite <- Hu, IH; [reflexivity| |exact Hw].
           simpl. lia.
      * rewrite fold_year_month by assumption.
        destruct (fold_date_parts_head d rest'') as [u Hu]. rewrite Hu.
        rewrite fold_year_month by assumption. rewrite <- Hu, IH; [reflexivity| |exact Hw].
        simpl. lia.
  - rewrite !fold_not_year by assumption. f_equal. apply IH; [simpl; lia|exact Hw].
Qed.

(** The scan restarts at every four-digit segment: what precedes it is
    scanned the same way whatever follows. *)
Lemma fold_date_parts_prefix (y : string) (pre X X' : list string) :
  is_year y = true ->
  fold_date_parts (y :: X) = fold_date_parts (y :: X') ->
  fold_date_parts (pre ++ y :: X) = fold_date_parts (pre ++ y :: X').
Proof.
  intros Hy HX. revert pre.
  induction pre as [pre IH] using list_strong_ind.
  destruct pre as [|p r]; [exact HX|].
  pose proof (year_not_month_day y Hy) as Hym.
  destruct (is_year p) eqn:Hp.
  - destruct r as [|m r'].
    + simpl app. rewrite !fold_year_alone by assumption. now rewrite HX.
    + destruct (is_month_day m) eqn:Hm.
      * destruct r' as [|d r''].
        -- simpl app. rewrite !fold_year_month by assumption. now rewrite HX.
        -- simpl app. destruct (is_month_day d) eqn:Hd.
           ++ rewrite !fold_year_month_day by assumption.
              rewrite IH by (simpl; lia). reflexivity.
           ++ rewrite !fold_year_month by assumption.
              change (d :: (r'' ++ y :: X))%list with ((d :: r'') ++ y :: X)%list.
              change (d :: (r'' ++ y :: X'))%list with ((d :: r'') ++ y :: X')%list.
              rewrite IH by (simpl; lia). reflexivity.
      * simpl app. rewrite !fold_year_alone by assumption.
        change (m :: (r' ++ y :: X))%list with ((m :: r') ++ y :: X)%list.
        change (m :: (r' ++ y :: X'))%list with ((m :: r') ++ y :: X')%list.
        rewrite IH by (simpl; lia). reflexivity.
  - simpl app. rewrite !fold_not_year by assumption.
    rewrite IH by (simpl; lia). reflexivity.
Qed.

Lemma toLowerCase_strip (s : string) :
  toLowerCase (strip_trailing_slash s) = strip_trailing_slash (toLowerCase s).
Proof.
  unfold strip_trailing_slash.
  induction s as [|c s IH]; [reflexivity|].
  destruct s as [|c' s].
  - simpl. pose proof (lower_char_slash c) as E. unfold is_slash in E.
    rewrite E. now destruct (Ascii.eqb c "/").
  - rewrite strip_trailing_cons by discriminate.
    change (toLowerCase (String c (strip_trailing "/" (String c' s))))
      with (String (lower_char c) (toLowerCase (strip_trailing "/" (String c' s)))).
    rewrite IH.
    change (toLowerCase (String c (String c' s)))
      with (String (lower_char c) (toLowerCase (String c' s))).
    rewrite strip_trailing_cons; [reflexivity|]. simpl. discriminate.
Qed.

Lemma toLowerCase_slash (z : string) :
  toLowerCase (String "/" z) = String "/" (toLowerCase z).
Proof. reflexivity. Qed.

Lemma has_slash_lower (s : string) : has_slash (toLowerCase s) = has_slash s.
Proof.
  induction s as [|c s IH]; [reflexivity|]. simpl. now rewrite lower_char_slash, IH.
Qed.

Lemma map_lower_id (L : list string) :
  Forall (fun x => toLowerCase x = x) L -> map toLowerCase L = L.
Proof. induction 1; simpl; congruence. Qed.

Lemma normalizeUrl_join_app (A T : list string) :
  A <> [] -> T <> [] -> Forall (fun x => has_slash x = false) A ->
  normalizeUrl (join_slash (A ++ T)) =
  join_slash (fold_date_parts (map toLowerCase A ++ tail_parts T)).
Proof.
  intros HA HT HF. unfold normalizeUrl, tail_parts.
  rewrite join_slash_app, toLowerCase_app, toLowerCase_slash, strip_app_slash
    by assumption.
  rewrite !toLowerCase_join.
  assert (Hs : split_slash (join_slash (map toLowerCase A)) = map toLowerCase A).
  { apply split_join.
    - destruct A; [congruence|discriminate].
    - apply Forall_map. eapply Forall_impl; [|exact HF].
      intros x Hx. now rewrite has_slash_lower. }
  destruct (String.eqb _ EmptyString).
  - now rewrite Hs, app_nil_r.
  - now rewrite split_slash_app, Hs.
Qed.

Lemma tail_parts_head (slug : string) (rest : list string) :
  has_slash slug = false ->
  tail_parts (slug :: rest) = [] \/
  exists t, tail_parts (slug :: rest) = toLowerCase slug :: t.
Proof.
  intros Hs. unfold tail_parts.
  destruct (String.eqb _ EmptyString); [now left|right].
  destruct rest as [|r rest].
  - unfold join_slash, String.concat.
    rewrite strip_no_end, split_slash_no_slash; [eauto| |];
      rewrite ?has_slash_lower; auto using no_slash_no_end.
    apply no_slash_no_end. now rewrite has_slash_lower.
  - rewrite join_slash_cons2, toLowerCase_app, toLowerCase_slash, strip_app_slash.
    assert (Hl : has_slash (toLowerCase slug) = false) by now rewrite has_slash_lower.
    destruct (String.eqb _ EmptyString).
    + rewrite split_slash_no_slash by exact Hl. eauto.
    + rewrite split_slash_app, split_slash_no_slash by exact Hl. simpl. eauto.
Qed.

(* ------------------------------------------------------------------ *)
(** * [normalizeUrl]: idempotence and day folding *)

(** C1 (as stated, refuted): [normalizeUrl] is not idempotent.  It strips
    a single trailing slash, so ["https://x.com/a//"] first becomes
    ["https://x.com/a/"] and then ["https://x.com/a"]; and it scans once,
    so the segment ["05"] after the year/month/day group ["2024/12/03"]
    survives the first pass and is dropped as a day by the second. *)
Lemma normalizeUrl_not_idempotent :
  normalizeUrl (normalizeUrl "https://x.com/a//") <> normalizeUrl "https://x.com/a//"
  /\ normalizeUrl (normalizeUrl "https://x.com/2024/12/03/05")
     <> normalizeUrl "https://x.com/2024/12/03/05".
Proof. split; intros H; vm_compute in H; discriminate H. Qed.

(** C1 (amended): [normalizeUrl] is idempotent on every URL that does not
    end in two slashes and whose lowercased, slash-stripped segments are
    well dated (every four-digit segment is followed by a one- or two-digit
    month, and no one- or two-digit segment directly follows a
    year/month/day group). *)
Theorem normalizeUrl_idempotent_well_dated (u : string) :
  ends_with_slash (strip_trailing_slash (toLowerCase u)) = false ->
  well_dated (split_slash (strip_trailing_slash (toLowerCase u))) = true ->
  normalizeUrl (normalizeUrl u) = normalizeUrl u.
Proof.
  intros Hend Hwd.
  set (s := strip_trailing_slash (toLowerCase u)) in *.
  assert (Hlow : toLowerCase s = s).
  { subst s. now rewrite toLowerCase_strip, toLowerCase_idem. }
  set (P := split_slash s) in *.
  set (F := fold_date_parts P).
  assert (HPne : P <> []) by apply split_slash_nonempty.
  assert (HFne : F <> []) by now apply fold_date_parts_nonempty.
  assert (HFlow : Forall (fun x => toLowerCase x = x) F).
  { apply Forall_forall. intros x Hx. apply fold_date_parts_incl in Hx.
    pose proof (split_slash_lowered s Hlow) as HL.
    rewrite Forall_forall in HL. now apply HL. }
  assert (HFns : Forall (fun x => has_slash x = false) F).
  { apply Forall_forall. intros x Hx. apply fold_date_parts_incl in Hx.
    pose proof (split_slash_segments s) as HL.
    rewrite Forall_forall in HL. now apply HL. }
  assert (HPtr : seg_trailing P = false).
  { rewrite <- ends_join by apply split_slash_segments.
    subst P. now rewrite join_split. }
  assert (HFtr : seg_trailing F = false).
  { subst F. destruct P as [|x [|y l]] eqn:EP; [congruence| |].
    - simpl. destruct (is_year x) eqn:Hy; [|reflexivity].
      simpl. apply String.eqb_neq. now apply year_nonempty.
    - simpl in HPtr. apply String.eqb_neq in HPtr.
      pose proof (fold_date_parts_last (x :: y :: l) ltac:(discriminate) HPtr) as Hl.
      destruct (fold_date_parts (x :: y :: l)) as [|a [|b t]]; try reflexivity.
      now apply String.eqb_neq. }
  unfold normalizeUrl at 1. fold s P F. unfold normalizeUrl at 1.
  rewrite toLowerCase_join, map_lower_id by exact HFlow.
  rewrite strip_no_end by (rewrite ends_join by exact HFns; exact HFtr).
  rewrite split_join by assumption.
  subst F. now rewrite fold_date_parts_idem.
Qed.

Lemma normalizeUrl_idempotent_well_dated_witness :
  ends_with_slash (strip_trailing_slash (toLowerCase "https://X.com/2024/12/03/Post/")) = false
  /\ well_dated (split_slash (strip_trailing_slash (toLowerCase "https://X.com/2024/12/03/Post/")))
     = true
  /\ normalizeUrl (normalizeUrl "https://X.com/2024/12/03/Post/")
     = normalizeUrl "https://X.com/2024/12/03/Post/".
Proof.
  split; [vm_compute; reflexivity|]. split; [vm_compute; reflexivity|].
  apply normalizeUrl_idempotent_well_dated; vm_compute; reflexivity.
Defined.

(** C4: a day segment between a year/month pair and the slug is folded
    away: the year/month/day/slug and year/month/slug forms of a URL
    normalize to the same string, whatever precedes and follows them
    (segments contain no slash; the slug is not itself one or two digits,
    which would make it a day). *)
Theorem normalizeUrl_folds_day (pre rest : list string) (y m d slug : string) :
  Forall (fun x => has_slash x = false) (pre ++ [y; m; d; slug]) ->
  is_year y = true -> is_month_day m = true -> is_month_day d = true ->
  is_month_day slug = false ->
  normalizeUrl (join_slash (pre ++ y :: m :: d :: slug :: rest))
  = normalizeUrl (join_slash (pre ++ y :: m :: slug :: rest))
  /\ normalizeUrl "https://x.com/2024/12/03/post" = normalizeUrl "https://x.com/2024/12/post".
Proof.
  intros HF Hy Hm Hd Hs. split; [|reflexivity].
  apply Forall_app in HF as [Hpre HF]. inversion HF as [|? ? Hys HF1]; subst.
  inversion HF1 as [|? ? Hms HF2]; subst. inversion HF2 as [|? ? Hds HF3]; subst.
  inversion HF3 as [|? ? Hss _]; subst.
  replace (pre ++ y :: m :: d :: slug :: rest)%list
    with ((pre ++ [y; m; d]) ++ slug :: rest)%list by now rewrite <- app_assoc.
  replace (pre ++ y :: m :: slug :: rest)%list
    with ((pre ++ [y; m]) ++ slug :: rest)%list by now rewrite <- app_assoc.
  rewrite !normalizeUrl_join_app;
    try (destruct pre; discriminate); try discriminate;
    try (apply Forall_app; split; [assumption|repeat constructor; assumption]).
  f_equal. rewrite !map_app, <- !app_assoc. simpl app.
  apply fold_date_parts_prefix; [now rewrite is_year_lower|].
  rewrite fold_year_month_day by (rewrite ?is_year_lower, ?is_month_day_lower; assumption).
  destruct (tail_parts_head slug rest Hss) as [-> | [t ->]].
  - rewrite fold_year_month_end by (rewrite ?is_year_lower, ?is_month_day_lower; assumption).
    reflexivity.
  - rewrite fold_year_month by (rewrite ?is_year_lower, ?is_month_day_lower; assumption).
    reflexivity.
Qed.

Lemma normalizeUrl_folds_day_witness :
  Forall (fun x => has_slash x = false) (["https:"; EmptyString; "x.com"] ++ ["2024"; "12"; "03"; "post"])
  /\ is_year "2024" = true /\ is_month_day "12" = true /\ is_month_day "03" = true
  /\ is_month_day "post" = false
  /\ normalizeUrl (join_slash (["https:"; EmptyString; "x.com"] ++ ["2024"; "12"; "03"; "post"; EmptyString]))
     = normalizeUrl (join_slash (["https:"; EmptyString; "x.com"] ++ ["2024"; "12"; "post"; EmptyString])).
Proof.
  split; [repeat constructor|].
  split; [reflexivity|]. split; [reflexivity|]. split; [reflexivity|]. split; [reflexivity|].
  apply (normalizeUrl_folds_day ["https:"; EmptyString; "x.com"] [EmptyString]
           "2024" "12" "03" "post"); try reflexivity.
  repeat constructor.
Defined.

(* ------------------------------------------------------------------ *)
(** * [csvToJson] *)

Lemma csv_row_step_entry (st : csv_state) (row : list string) :
  csv_row_step st row =
  match row_entry row with
  | Some (k, v) => {| viewsData := js_set k v (viewsData st);
                      processed := S (processed st); skipped := skipped st |}
  | None => {| viewsData := viewsData st; processed := processed st;
               skipped := S (skipped st) |}
  end.
Proof. destruct row as [|a [|b [|c row]]]; reflexivity. Qed.

Lemma own_get_set (k k' : string) (v : ViewRecord.t) (l : list (string * ViewRecord.t)) :
  own_get k (own_set k' v l) = if String.eqb k k' then Some v else own_get k l.
Proof.
  induction l as [|[k'' v''] l IH]; simpl.
  - destruct (String.eqb k k'); reflexivity.
  - destruct (String.eqb k' k'') eqn:E1; simpl.
    + apply String.eqb_eq in E1. subst k''. destruct (String.eqb k k'); reflexivity.
    + rewrite IH. destruct (String.eqb k k'') eqn:E2, (String.eqb k k') eqn:E3; try reflexivity.
      apply String.eqb_eq in E2, E3. subst. now rewrite String.eqb_refl in E1.
Qed.

Lemma js_get_set (k k' : string) (v : ViewRecord.t) (m : views_data) :
  js_get k (js_set k' v m) = if String.eqb k k' then Some v else js_get k m.
Proof.
  unfold js_set, js_get. destruct (own_get k' (own m)) eqn:E; simpl.
  - rewrite own_get_set. destruct (String.eqb k k'); reflexivity.
  - destruct (String.eqb k' proto_key) eqn:Ep; simpl.
    + apply String.eqb_eq in Ep. subst k'.
      destruct (String.eqb k proto_key) eqn:Ek.
      * apply String.eqb_eq in Ek. subst k. now rewrite E.
      * reflexivity.
    + rewrite own_get_set. destruct (String.eqb k k'); reflexivity.
Qed.

Lemma csv_rows_other_keys (k : string) (rows : list (list string)) (st : csv_state) :
  (forall row r, In row rows -> row_entry row <> Some (k, r)) ->
  js_get k (viewsData (fold_left csv_row_step rows st)) = js_get k (viewsData st).
Proof.
  revert st. induction rows as [|row rows IH]; intros st H; [reflexivity|].
  simpl. rewrite IH by (intros; apply H; now right).
  rewrite csv_row_step_entry.
  destruct (row_entry row) as [[k' v]|] eqn:E; [|reflexivity]. simpl.
  rewrite js_get_set. destruct (String.eqb k k') eqn:Ek; [|reflexivity].
  apply String.eqb_eq in Ek. subst k'. exfalso. apply (H row v); [now left|exact E].
Qed.

(** C2 (code bug): the [try]/[catch] around the row does not skip a row
    whose views field is malformed, because [parseInt] returns [NaN]
    instead of throwing: the spec's two-row import yields two entries, the
    second with views [NaN], and counts [processed = 2], [skipped = 0]. *)
Theorem csvToJson_keeps_malformed_views :
  csvToJson [row_title_a; row_title_b] =
  {| viewsData :=
       {| own :=
            [("https://x.com/a", {| ViewRecord.title := "Title A"; ViewRecord.views := Int 42 |});
             ("https://x.com/b", {| ViewRecord.title := "Title B"; ViewRecord.views := NaN |})];
          proto := None |};
     processed := 2; skipped := 0 |}.
Proof. reflexivity. Qed.

(** C8: when several rows clean to the same URL key, the mapping holds
    the record of the last of them. *)
Theorem csvToJson_last_row_wins (pre post : list (list string)) (row : list string)
    (k : string) (r : ViewRecord.t) :
  row_entry row = Some (k, r) ->
  (forall row' r', In row' post -> row_entry row' <> Some (k, r')) ->
  js_get k (viewsData (csvToJson (pre ++ row :: post))) = Some r.
Proof.
  intros Hrow Hpost. unfold csvToJson. rewrite fold_left_app. simpl.
  rewrite csv_rows_other_keys by exact Hpost.
  rewrite csv_row_step_entry, Hrow. simpl. rewrite js_get_set, String.eqb_refl.
  reflexivity.
Qed.

Lemma csvToJson_last_row_wins_witness :
  row_entry ["B"; "2"; "https://x.com/a"] =
    Some ("https://x.com/a", {| ViewRecord.title := "B"; ViewRecord.views := Int 2 |})
  /\ js_get "https://x.com/a"
       (viewsData (csvToJson ([row_title_a] ++ ["B"; "2"; "https://x.com/a"] :: [row_title_b])))
     = Some {| ViewRecord.title := "B"; ViewRecord.views := Int 2 |}.
Proof.
  split; [reflexivity|].
  apply csvToJson_last_row_wins; [reflexivity|].
  intros row' r' [<-|[]]. discriminate.
Defined.

Lemma csv_counts (rows : list (list string)) (st : csv_state) :
  processed (fold_left csv_row_step rows st)
  = processed st + length (filter (fun row => Nat.leb 3 (length row)) rows)
  /\ skipped (fold_left csv_row_step rows st)
  = skipped st + length (filter (fun row => Nat.ltb (length row) 3) rows).
Proof.
  revert st. induction rows as [|row rows IH]; intros st; simpl; [lia|].
  destruct (IH (csv_row_step st row)) as [H1 H2]. rewrite H1, H2.
  destruct row as [|a [|b [|c row]]]; simpl; lia.
Qed.

(** C9: a row is skipped exactly when it has fewer than three fields; a
    row with at least three is assigned and counted processed (extra
    fields ignored); a short row is counted skipped, assigns nothing, and
    the loop goes on with the remaining rows. *)
Theorem csvToJson_skips_short_rows :
  (forall st title views url extra,
     csv_row_step st (title :: views :: url :: extra) =
     {| viewsData := js_set (strip_trailing_slash (strip_quotes url))
                       {| ViewRecord.title := strip_quotes title;
                          ViewRecord.views := parseInt views |} (viewsData st);
        processed := S (processed st); skipped := skipped st |})
  /\ (forall st row, length row < 3 ->
        csv_row_step st row =
        {| viewsData := viewsData st; processed := processed st;
           skipped := S (skipped st) |})
  /\ (forall records,
        processed (csvToJson records) = length (filter (fun row => Nat.leb 3 (length row)) records)
        /\ skipped (csvToJson records) = length (filter (fun row => Nat.ltb (length row) 3) records)).
Proof.
  split; [reflexivity|]. split.
  - intros st row Hl. destruct row as [|a [|b [|c row]]]; try reflexivity.
    simpl in Hl. lia.
  - intros records. apply (csv_counts records csv_init).
Qed.

(* ------------------------------------------------------------------ *)
(** * [fetchWordPressPosts] *)

Lemma insert_index_perm (k : string) (l : list string) :
  Permutation (insert_index k l) (k :: l).
Proof.
  induction l as [|k' l IH]; simpl; [reflexivity|].
  destruct (index_of k <=? index_of k')%Z; [reflexivity|].
  rewrite IH. apply perm_swap.
Qed.

Lemma sort_indices_perm (l : list string) : Permutation (sort_indices l) l.
Proof.
  induction l as [|k l IH]; simpl; [reflexivity|].
  rewrite insert_index_perm. now apply perm_skip.
Qed.

Lemma object_keys_in (k : string) (m : views_data) :
  In k (object_keys m) <-> In k (map fst (own m)).
Proof.
  unfold object_keys. rewrite in_app_iff.
  split.
  - intros [H|H].
    + apply (Permutation_in _ (sort_indices_perm _)) in H. now apply filter_In in H.
    + now apply filter_In in H.
  - intros H. destruct (is_array_index k) eqn:E.
    + left. apply (Permutation_in _ (Permutation_sym (sort_indices_perm _))).
      now apply filter_In.
    + right. apply filter_In. now rewrite E.
Qed.

Lemma own_get_key (k : string) (l : list (string * ViewRecord.t)) :
  In k (map fst l) -> exists r, own_get k l = Some r.
Proof.
  induction l as [|[k' v'] l IH]; simpl; [easy|].
  destruct (String.eqb k k') eqn:E; [eauto|].
  intros [->|H]; [now rewrite String.eqb_refl in E|]. now apply IH.
Qed.

Lemma js_get_key (k : string) (m : views_data) :
  In k (object_keys m) -> exists r, js_get k m = Some r.
Proof.
  intros H. apply object_keys_in, own_get_key in H as [r Hr].
  exists r. unfold js_get. now rewrite Hr.
Qed.

Section FetcherProofs.
Variable axios_get : string -> list (string * string) -> fetch_result.
Variable toISOString : string -> option string.

Lemma post_views_spec (vd : views_data) (postUrl : string) :
  exists v, post_views vd postUrl = Some v
  /\ (v = Int 0 \/ exists k r, In k (object_keys vd) /\ js_get k vd = Some r
        /\ normalizeUrl k = normalizeUrl postUrl /\ v = ViewRecord.views r)
  /\ ((forall k, In k (object_keys vd) -> normalizeUrl k <> normalizeUrl postUrl) ->
      v = Int 0).
Proof.
  unfold post_views, find_matched_url.
  destruct (find _ _) as [k|] eqn:Hf.
  - apply find_some in Hf as [Hin Hk]. apply String.eqb_eq in Hk.
    destruct (String.eqb k EmptyString).
    + exists (Int 0). split; [reflexivity|]. split; [now left|]. easy.
    + destruct (js_get_key k vd Hin) as [r Hr]. rewrite Hr. simpl.
      exists (ViewRecord.views r). split; [reflexivity|]. split.
      * right. exists k, r. auto.
      * intros Hno. exfalso. exact (Hno k Hin Hk).
  - exists (Int 0). split; [reflexivity|]. split; [now left|]. easy.
Qed.


Lemma make_entry_some (vd : views_data) (pt : string) (p : post) :
  toISOString (post_date p) <> None -> make_entry toISOString vd pt p <> None.
Proof.
  unfold make_entry. intros Hd.
  destruct (post_views_spec vd (post_link p)) as [v [Hv _]]. rewrite Hv.
  destruct (toISOString (post_date p)); [discriminate|congruence].
Qed.

Lemma push_posts_acc (vd : views_data) (pt : string) (data : list post)
    (acc : list Entry.t) :
  push_posts toISOString vd pt data acc = (acc ++ push_posts toISOString vd pt data [])%list.
Proof.
  revert acc. induction data as [|p data IH]; intros acc; simpl.
  - now rewrite app_nil_r.
  - destruct (make_entry toISOString vd pt p) as [e|]; [|now rewrite app_nil_r].
    rewrite IH, (IH [e]). now rewrite app_assoc.
Qed.

Lemma push_posts_in (vd : views_data) (pt : string) (data : list post)
    (acc : list Entry.t) (e : Entry.t) :
  In e (push_posts toISOString vd pt data acc) ->
  In e acc \/ exists p, In p data /\ make_entry toISOString vd pt p = Some e.
Proof.
  revert acc. induction data as [|p data IH]; intros acc; simpl; [now left|].
  destruct (make_entry toISOString vd pt p) as [e'|] eqn:E; [|now left].
  intros H. destruct (IH _ H) as [H'|[q [Hq Hqe]]].
  - apply in_app_or in H' as [H'|[<-|[]]]; [now left|]. right. eauto.
  - right. eauto.
Qed.

Lemma push_posts_length (vd : views_data) (pt : string) (data : list post)
    (acc : list Entry.t) :
  (forall p, In p data -> toISOString (post_date p) <> None) ->
  length (push_posts toISOString vd pt data acc) = length acc + length data.
Proof.
  revert acc. induction data as [|p data IH]; intros acc Hd; simpl; [lia|].
  destruct (make_entry toISOString vd pt p) as [e|] eqn:E.
  - rewrite IH by (intros; apply Hd; now right). rewrite length_app. simpl. lia.
  - exfalso. apply (make_entry_some vd pt p); [apply Hd; now left|exact E].
Qed.

Lemma fetch_loop (baseUrl : string) (afterDate : option string) (page perPage : Z)
    (vd : views_data) (postTypes : list string) (acc : list Entry.t) :
  fold_left (fetch_category axios_get toISOString baseUrl afterDate page perPage vd)
    postTypes acc
  = (acc ++ concat (map (category_entries axios_get toISOString baseUrl afterDate page perPage vd) postTypes))%list.
Proof.
  revert acc. induction postTypes as [|pt pts IH]; intros acc; simpl.
  - now rewrite app_nil_r.
  - rewrite IH. unfold fetch_category, category_entries.
    destruct (axios_get _ _).
    + rewrite push_posts_acc. now rewrite app_assoc.
    + reflexivity.
Qed.
End FetcherProofs.

(** C3 (code bug): the views of a post whose URL matches a key are not
    always that key's record's views.  The CSV row for the site root ["/"]
    is stored under the empty key, which normalizes like the post link
    ["/"]; [find] returns that key, but the empty string is falsy, so
    [matchedUrl ? ... : 0] gives the post 0 views instead of 9. *)
Theorem fetchWordPressPosts_empty_key_views :
  js_get EmptyString (viewsData (csvToJson [row_root]))
    = Some {| ViewRecord.title := "Home"; ViewRecord.views := Int 9 |}
  /\ normalizeUrl EmptyString = normalizeUrl (post_link post_root)
  /\ find_matched_url (viewsData (csvToJson [row_root])) (normalizeUrl (post_link post_root))
      = Some EmptyString
  /\ map Entry.views
      (fetchWordPressPosts (fun _ _ => Fetched [post_root]) iso_stub "https://x.com"
         ["posts"] None 1 100 (viewsData (csvToJson [row_root])))
    = [Int 0].
Proof. repeat split; reflexivity. Qed.

Lemma concat_map_filter_nil {A B : Type} (f : A -> list B) (g : A -> bool) (l : list A) :
  (forall a, g a = false -> f a = []) ->
  concat (map f l) = concat (map f (filter g l)).
Proof.
  intros H. induction l as [|a l IH]; [reflexivity|]. simpl.
  destruct (g a) eqn:E; simpl; rewrite IH; [reflexivity|]. now rewrite H.
Qed.

(** C6: a rejected request for one category is caught and contributes
    no entry; the function returns the concatenation, in category order,
    of what each category contributes, which is what it returns when run on
    the successfully fetched categories alone. *)
Theorem fetchWordPressPosts_isolates_failures
    (axios_get : string -> list (string * string) -> fetch_result)
    (toISOString : string -> option string) (baseUrl : string)
    (postTypes : list string) (afterDate : option string) (page perPage : Z)
    (vd : views_data) :
  fetchWordPressPosts axios_get toISOString baseUrl postTypes afterDate page perPage vd
  = concat (map (category_entries axios_get toISOString baseUrl afterDate page perPage vd)
                postTypes)
  /\ (forall pt, category_fetched axios_get baseUrl afterDate page perPage pt = false ->
        category_entries axios_get toISOString baseUrl afterDate page perPage vd pt = [])
  /\ fetchWordPressPosts axios_get toISOString baseUrl postTypes afterDate page perPage vd
     = fetchWordPressPosts axios_get toISOString baseUrl
         (filter (category_fetched axios_get baseUrl afterDate page perPage) postTypes)
         afterDate page perPage vd.
Proof.
  assert (Hfail : forall pt, category_fetched axios_get baseUrl afterDate page perPage pt = false ->
            category_entries axios_get toISOString baseUrl afterDate page perPage vd pt = []).
  { intros pt. unfold category_fetched, category_entries.
    destruct (axios_get _ _); easy. }
  unfold fetchWordPressPosts. rewrite !fetch_loop. simpl.
  split; [reflexivity|]. split; [exact Hfail|].
  now apply concat_map_filter_nil.
Qed.

(* ------------------------------------------------------------------ *)
(** * [generateMarkdownOutput] *)

Lemma string_compare_refl (s : string) : String.compare s s = Eq.
Proof.
  induction s as [|c s IH]; [reflexivity|]. simpl.
  unfold Ascii.compare. now rewrite N.compare_refl.
Qed.

Lemma date_cmp_gt (a b : Entry.t) : date_cmp a b = Gt -> date_le b a.
Proof.
  unfold date_le, date_cmp, localeCompare. rewrite String.compare_antisym.
  intros H Hba. rewrite Hba in H. discriminate.
Qed.

Lemma HdRel_insert (y x : Entry.t) (l : list Entry.t) :
  date_le y x -> HdRel date_le y l -> HdRel date_le y (insert_by_date x l).
Proof.
  intros Hyx Hyl. destruct l as [|z l]; simpl; [now constructor|].
  destruct (date_cmp x z); constructor; try exact Hyx. now inversion Hyl.
Qed.

Lemma insert_by_date_sorted (x : Entry.t) (l : list Entry.t) :
  Sorted date_le l -> Sorted date_le (insert_by_date x l).
Proof.
  induction 1 as [|y l Hs IH Hhd]; simpl; [now repeat constructor|].
  destruct (date_cmp x y) eqn:E.
  - constructor; [now constructor|]. constructor. unfold date_le. now rewrite E.
  - constructor; [now constructor|]. constructor. unfold date_le. now rewrite E.
  - constructor; [exact IH|]. apply HdRel_insert; [now apply date_cmp_gt|exact Hhd].
Qed.

Lemma insert_by_date_perm (x : Entry.t) (l : list Entry.t) :
  Permutation (x :: l) (insert_by_date x l).
Proof.
  induction l as [|y l IH]; simpl; [reflexivity|].
  destruct (date_cmp x y); try reflexivity.
  rewrite perm_swap. now constructor.
Qed.

Lemma filter_insert_by_date (d : string) (x : Entry.t) (l : list Entry.t) :
  filter (same_date d) (insert_by_date x l)
  = if same_date d x then x :: filter (same_date d) l else filter (same_date d) l.
Proof.
  induction l as [|y l IH]; simpl; [now destruct (same_date d x)|].
  destruct (date_cmp x y) eqn:E; simpl; try now destruct (same_date d x).
  rewrite IH. destruct (same_date d x) eqn:Hx, (same_date d y) eqn:Hy; try reflexivity.
  unfold same_date in Hx, Hy. apply String.eqb_eq in Hx, Hy.
  unfold date_cmp, localeCompare in E. rewrite Hx, Hy, string_compare_refl in E.
  discriminate.
Qed.

Lemma sort_by_date_props (l : list Entry.t) :
  Sorted date_le (sort_by_date l) /\ Permutation l (sort_by_date l)
  /\ forall d, filter (same_date d) (sort_by_date l) = filter (same_date d) l.
Proof.
  induction l as [|x l [IH1 [IH2 IH3]]]; simpl.
  - split; [constructor|]. split; [constructor|]. reflexivity.
  - split; [now apply insert_by_date_sorted|]. split.
    + rewrite <- insert_by_date_perm. now constructor.
    + intros d. rewrite filter_insert_by_date, IH3. reflexivity.
Qed.

(** C5: the report lists the entries sorted ascending by publication
    date, entries with the same date in their original relative order;
    for the dates [2024-11-05; 2024-10-10; 2024-11-05] the 2024-10-10 entry
    comes first and the two 2024-11-05 entries keep their order. *)
Theorem generateMarkdownOutput_sorted_stable :
  (forall h posts inputDate,
     fst (generateMarkdownOutput h posts inputDate)
     = String.concat newline
         (markdown_header inputDate ++ map render_row (sort_by_date (h posts)))
     /\ Sorted date_le (sort_by_date (h posts))
     /\ Permutation (h posts) (sort_by_date (h posts))
     /\ forall d, filter (same_date d) (sort_by_date (h posts)) = filter (same_date d) (h posts))
  /\ fst (generateMarkdownOutput
            (fun _ => [entry_on "2024-11-05" 1; entry_on "2024-10-10" 2;
                       entry_on "2024-11-05" 3]) 0 "all")
     = String.concat newline
         (markdown_header "all" ++
          [render_row (entry_on "2024-10-10" 2); render_row (entry_on "2024-11-05" 1);
           render_row (entry_on "2024-11-05" 3)]).
Proof.
  split; [|vm_compute; reflexivity].
  intros h posts inputDate. split; [reflexivity|]. apply sort_by_date_props.
Qed.

(** C10: [posts.sort] sorts the caller's array in place: after the call
    the referenced array is its stable sort by date, a sorted permutation
    of what it held; other arrays are untouched; and an array that was not
    sorted has been changed. *)
Theorem generateMarkdownOutput_sorts_in_place (h : heap) (posts : nat) (inputDate : string) :
  let h' := snd (generateMarkdownOutput h posts inputDate) in
  h' posts = sort_by_date (h posts)
  /\ Sorted date_le (h' posts)
  /\ Permutation (h posts) (h' posts)
  /\ (forall r, r <> posts -> h' r = h r)
  /\ (~ Sorted date_le (h posts) -> h' posts <> h posts).
Proof.
  intros h'. unfold h', generateMarkdownOutput, heap_set. simpl.
  rewrite PeanoNat.Nat.eqb_refl.
  destruct (sort_by_date_props (h posts)) as [Hs [Hp _]].
  split; [reflexivity|]. split; [exact Hs|]. split; [exact Hp|]. split.
  - intros r Hr. apply PeanoNat.Nat.eqb_neq in Hr. now rewrite Hr.
  - intros Hns Heq. apply Hns. now rewrite <- Heq.
Qed.

(* ------------------------------------------------------------------ *)
(** * The report filename *)

Lemma remove_unsafe_filter (s : string) :
  remove_unsafe s = string_of_list_ascii (filter filename_char (list_ascii_of_string s)).
Proof.
  induction s as [|c s IH]; [reflexivity|]. simpl.
  destruct (filename_char c); simpl; now rewrite IH.
Qed.

(** C7: the report filename is ["devblognews-"], then the date argument
    (["all"] when it is empty) with every character other than an ASCII
    letter, digit, hyphen or underscore removed, then [".md"]; for
    ["2024/10/01!!"] it is ["devblognews-20241001.md"]. *)
Theorem report_filename_sanitized :
  (forall dateInput,
     report_filename dateInput
     = "devblognews-"
       ++ string_of_list_ascii
            (filter filename_char
               (list_ascii_of_string
                  (if String.eqb dateInput EmptyString then "all" else dateInput)))
       ++ ".md")
  /\ report_filename "2024/10/01!!" = "devblognews-20241001.md"
  /\ report_filename EmptyString = "devblognews-all.md".
Proof.
  split; [|split; reflexivity].
  intros dateInput. unfold report_filename, safeFilename.
  rewrite remove_unsafe_filter. reflexivity.
Qed.

(* ------------------------------------------------------------------ *)
(** * Further properties of [parseInt] *)

Lemma read_digits_stop (t : string) (acc : Z) (n : nat) :
  digit_start t = false -> read_digits t acc n = (acc, n).
Proof. destruct t as [|c t]; simpl; [reflexivity|]. now intros ->. Qed.

Lemma read_digits_digit (c : ascii) (s : string) (acc : Z) (n : nat) :
  is_digit c = true ->
  read_digits (String c s) acc n
  = read_digits s (10 * acc + (Z.of_N (N_of_ascii c) - 48))%Z (S n).
Proof. simpl. now intros ->. Qed.

Lemma read_digits_uint_acc (d : Decimal.uint) (t : string) :
  digit_start t = false ->
  forall acc n,
  read_digits (NilEmpty.string_of_uint d ++ t) (Z.pos acc) n
  = (Z.pos (Pos.of_uint_acc d acc), n + String.length (NilEmpty.string_of_uint d)).
Proof.
  intros Ht. induction d as [|d IH|d IH|d IH|d IH|d IH|d IH|d IH|d IH|d IH|d IH];
    intros acc n; cbn [NilEmpty.string_of_uint String.append Pos.of_uint_acc String.length].
  1: (rewrite read_digits_stop by exact Ht; f_equal; lia).
  all: rewrite read_digits_digit by reflexivity; vm_compute (Z.of_N (N_of_ascii _) - 48)%Z;
    match goal with |- context [Pos.of_uint_acc _ ?a] =>
      replace (10 * Z.pos acc + _)%Z with (Z.pos a) by lia; rewrite IH; f_equal; lia end.
Qed.

Lemma read_digits_uint (d : Decimal.uint) (t : string) (n : nat) :
  digit_start t = false ->
  read_digits (NilEmpty.string_of_uint d ++ t) 0 n
  = (Z.of_N (Pos.of_uint d), n + String.length (NilEmpty.string_of_uint d)).
Proof.
  intros Ht. revert n. induction d as [|d IH|d IH|d IH|d IH|d IH|d IH|d IH|d IH|d IH|d IH];
    intros n; cbn [NilEmpty.string_of_uint String.append Pos.of_uint String.length].
  1: (rewrite read_digits_stop by exact Ht; f_equal; lia).
  all: rewrite read_digits_digit by reflexivity; vm_compute (Z.of_N (N_of_ascii _) - 48)%Z.
  1: (rewrite IH; f_equal; lia).
  all: match goal with |- context [Pos.of_uint_acc _ ?a] =>
      replace (10 * 0 + _)%Z with (Z.pos a) by lia; rewrite read_digits_uint_acc by exact Ht;
      f_equal; lia end.
Qed.

Lemma digit_char_props (c : ascii) :
  is_digit c = true ->
  is_js_space c = false /\ Ascii.eqb c "-"%char = false /\ Ascii.eqb c "+"%char = false.
Proof. destruct c as [[] [] [] [] [] [] [] []]; vm_compute; easy. Qed.

Lemma string_of_uint_head (d : Decimal.uint) (t : string) :
  d <> Decimal.Nil ->
  exists c r, NilEmpty.string_of_uint d ++ t = String c r /\ is_digit c = true.
Proof. destruct d; simpl; intros H; [easy| ..]; eexists _, _; split; reflexivity. Qed.

Lemma parseInt_uint (neg : bool) (d : Decimal.uint) (t : string) :
  d <> Decimal.Nil -> digit_start t = false ->
  parseInt ((if neg then "-" else EmptyString) ++ NilEmpty.string_of_uint d ++ t)
  = signed_number neg (Z.of_N (Pos.of_uint d)).
Proof.
  intros Hd Ht.
  destruct (string_of_uint_head d t Hd) as [c [r [E Hc]]].
  destruct (digit_char_props c Hc) as [Hs [Hm Hp]].
  unfold parseInt. destruct neg; cbn [String.append]; rewrite E.
  - change (trim_start (String "-" (String c r))) with (String "-"%char (String c r)).
    cbv iota beta. change (Ascii.eqb "-" "-") with true. cbv iota beta.
    rewrite <- E, read_digits_uint by exact Ht. destruct d; [easy|..]; reflexivity.
  - cbn [trim_start]. rewrite Hs, Hm, Hp.
    rewrite <- E, read_digits_uint by exact Ht. destruct d; [easy|..]; reflexivity.
Qed.

Lemma div_round_even_ge (a b : Z) : (a / b <= div_round_even a b)%Z.
Proof.
  unfold div_round_even. destruct (_ || _); lia.
Qed.

(** A number of at least 10^21 has a Number value of at least 10^21. *)
Lemma double_of_nat_ge (v w : Z) :
  (10 ^ 21 <= v)%Z -> double_of_nat v = Some w -> (10 ^ 21 <= w)%Z.
Proof.
  intros Hv. unfold double_of_nat.
  assert (H53 : (2 ^ 53 <= v)%Z) by (eapply Z.le_trans; [|exact Hv]; vm_compute; discriminate).
  rewrite (proj2 (Z.ltb_ge _ _) H53). cbv zeta.
  destruct (_ <? 2 ^ 1024)%Z; [|discriminate]. intros [= <-].
  assert (Hpos : (0 < v)%Z) by lia.
  assert (He : (69 <= Z.log2 v)%Z).
  { apply Z.log2_le_pow2; [exact Hpos|]. eapply Z.le_trans; [|exact Hv]. vm_compute; discriminate. }
  set (e := Z.log2 v) in *.
  assert (Hb : (0 < 2 ^ (e - 52))%Z) by (apply Z.pow_pos_nonneg; lia).
  assert (Hq : (v / 2 ^ (e - 52) * 2 ^ (e - 52)
                <= div_round_even v (2 ^ (e - 52)) * 2 ^ (e - 52))%Z)
    by (apply Z.mul_le_mono_nonneg_r; [lia|apply div_round_even_ge]).
  eapply Z.le_trans; [|exact Hq].
  destruct (Z.eq_dec e 69) as [E|E].
  - rewrite E in *. change (69 - 52)%Z with 17%Z in *.
    replace (10 ^ 21)%Z with (10 ^ 21 / 2 ^ 17 * 2 ^ 17)%Z by reflexivity.
    apply Z.mul_le_mono_nonneg_r; [lia|]. apply Z.div_le_mono; lia.
  - assert (Hle : (2 ^ e <= v)%Z) by (apply Z.log2_spec; exact Hpos).
    assert (Hsplit : (2 ^ e = 2 ^ 52 * 2 ^ (e - 52))%Z)
      by (rewrite <- Z.pow_add_r by lia; f_equal; lia).
    assert (H52 : (2 ^ 52 <= v / 2 ^ (e - 52))%Z)
      by (apply Z.div_le_lower_bound; [exact Hb|lia]).
    assert (H70 : (2 ^ 70 <= 2 ^ e)%Z) by (apply Z.pow_le_mono_r; lia).
    assert (H21 : (10 ^ 21 <= 2 ^ 70)%Z) by (vm_compute; discriminate).
    nia.
Qed.

Lemma candidate_ok (m v : Z) :
  (match double_of_nat v with Some w => (w =? m)%Z | None => false end) = true ->
  double_of_nat v = Some m.
Proof.
  destruct (double_of_nat v); [|discriminate]. intros E. apply Z.eqb_eq in E. now subst.
Qed.

Lemma number_candidate_ok (m v : Z) (d k : nat) :
  number_candidate m d k = Some v -> double_of_nat v = Some m.
Proof.
  unfold number_candidate. cbv zeta.
  set (lo := (m / 10 ^ Z.of_nat (d - k) * 10 ^ Z.of_nat (d - k))%Z).
  set (hi := (lo + 10 ^ Z.of_nat (d - k))%Z).
  destruct (match double_of_nat lo with Some w => (w =? m)%Z | None => false end) eqn:Hlo;
  destruct (match double_of_nat hi with Some w => (w =? m)%Z | None => false end) eqn:Hhi;
  try discriminate; intros [= <-];
  apply candidate_ok in Hlo || apply candidate_ok in Hhi; try assumption.
  all: apply candidate_ok in Hhi.
  all: repeat match goal with |- context [if ?b then _ else _] => destruct b end; assumption.
Qed.

Lemma shortest_value_ok (m : Z) :
  double_of_nat m = Some m -> double_of_nat (shortest_value m) = Some m.
Proof.
  intros Hm. unfold shortest_value. generalize (seq 1 (String.length (Z_to_string m))).
  intros ks. induction ks as [|k ks IH]; simpl; [exact Hm|].
  destruct (number_candidate m _ k) eqn:E; [|exact IH].
  now apply number_candidate_ok in E.
Qed.

Lemma double_of_nat_pos (v m : Z) :
  (0 < m)%Z -> double_of_nat v = Some m -> (0 < v)%Z.
Proof.
  intros Hm. unfold double_of_nat.
  destruct (v <? 2 ^ 53)%Z eqn:E.
  - intros [= ->]. exact Hm.
  - apply Z.ltb_ge in E. intros _. assert (0 < 2 ^ 53)%Z by reflexivity. lia.
Qed.

(** The string [`${m}`] of a positive Number below 10^21 is the decimal
    expansion of a positive integer whose Number value is [m]. *)
Lemma positive_to_string_small (m : Z) :
  (0 < m)%Z -> (m < 10 ^ 21)%Z -> double_of_nat m = Some m ->
  exists p, positive_to_string m = Z_to_string (Z.pos p) /\ double_of_nat (Z.pos p) = Some m.
Proof.
  intros H0 H21 Hm. pose proof (shortest_value_ok m Hm) as Hs.
  unfold positive_to_string.
  destruct (shortest_value m <? 10 ^ 21)%Z eqn:E.
  - pose proof (double_of_nat_pos _ _ H0 Hs) as Hp.
    destruct (shortest_value m) as [|p|p]; try lia. now exists p.
  - apply Z.ltb_ge in E. apply (double_of_nat_ge _ _ E) in Hs. lia.
Qed.

Lemma parseInt_Z_pos (neg : bool) (p : positive) (t : string) :
  digit_start t = false ->
  parseInt ((if neg then "-" else EmptyString) ++ Z_to_string (Z.pos p) ++ t)
  = signed_number neg (Z.pos p).
Proof.
  intros Ht.
  pose proof (parseInt_uint neg (Pos.to_uint p) t (DecimalPos.Unsigned.to_uint_nonnil p) Ht) as H.
  rewrite DecimalPos.Unsigned.of_to in H. exact H.
Qed.

(** [parseInt(`${x}`, 10)] gives back any integral Number [x] below 10^21
    in magnitude (the numbers printed without an exponent), whatever
    follows the printed digits as long as it does not start with a digit:
    printing then parsing is the identity on these numbers. *)
Theorem parseInt_num_to_string (z : Z) (t : string) :
  is_int_number z = true -> (Z.abs z < 10 ^ 21)%Z -> digit_start t = false ->
  parseInt (num_to_string (Int z) ++ t) = Int z.
Proof.
  intros Hn H21 Ht. unfold is_int_number in Hn.
  assert (Hd : double_of_nat (Z.abs z) = Some (Z.abs z)).
  { destruct (double_of_nat (Z.abs z)) as [w|]; [|discriminate].
    apply Z.eqb_eq in Hn. now subst. }
  unfold num_to_string.
  destruct (z =? 0)%Z eqn:E0.
  - apply Z.eqb_eq in E0. subst z.
    exact (parseInt_uint false (Decimal.D0 Decimal.Nil) t ltac:(discriminate) Ht).
  - apply Z.eqb_neq in E0.
    destruct (z <? 0)%Z eqn:En.
    + apply Z.ltb_lt in En. rewrite Z.abs_neq in Hd, H21 by lia.
      destruct (positive_to_string_small (- z) ltac:(lia) H21 Hd) as [p [Hp Hdp]].
      rewrite Hp, <- str_app_assoc.
      pose proof (parseInt_Z_pos true p t Ht) as Hq. cbv beta iota in Hq.
      rewrite Hq. unfold signed_number. simpl.
      rewrite Hdp. f_equal. lia.
    + apply Z.ltb_ge in En. rewrite Z.abs_eq in Hd, H21 by lia.
      destruct (positive_to_string_small z ltac:(lia) H21 Hd) as [p [Hp Hdp]].
      rewrite Hp.
      pose proof (parseInt_Z_pos false p t Ht) as Hq. cbv beta iota in Hq.
      change (EmptyString ++ Z_to_string (Z.pos p) ++ t) with (Z_to_string (Z.pos p) ++ t) in Hq.
      rewrite Hq. unfold signed_number. simpl. now rewrite Hdp.
Qed.

Lemma trim_start_spaces (ws s : string) :
  forallb is_js_space (list_ascii_of_string ws) = true ->
  trim_start (ws ++ s) = trim_start s.
Proof.
  induction ws as [|c ws IH]; simpl; [reflexivity|].
  intros H. apply andb_prop in H as [Hc Hws]. rewrite Hc. now apply IH.
Qed.

(** [parseInt] skips leading whitespace: prefixing a string of
    whitespace characters does not change the result. *)
Theorem parseInt_leading_space (ws s : string) :
  forallb is_js_space (list_ascii_of_string ws) = true ->
  parseInt (ws ++ s) = parseInt s.
Proof. intros H. unfold parseInt. now rewrite trim_start_spaces. Qed.

Lemma trim_start_suffix (s : string) : exists p, s = p ++ trim_start s.
Proof.
  induction s as [|c s [p Hp]]; simpl; [now exists EmptyString|].
  destruct (is_js_space c); [exists (String c p); simpl; congruence|].
  now exists EmptyString.
Qed.

Lemma no_digit_app (p s : string) :
  (forall c, In c (list_ascii_of_string (p ++ s)) -> is_digit c = false) ->
  forall c, In c (list_ascii_of_string s) -> is_digit c = false.
Proof.
  induction p as [|a p IH]; simpl; [easy|]. intros H c Hc. apply IH; [|exact Hc].
  intros c' Hc'. apply H. now right.
Qed.

(** A views field that contains no decimal digit at all is parsed to
    [NaN]. *)
Theorem parseInt_no_digit (s : string) :
  (forall c, In c (list_ascii_of_string s) -> is_digit c = false) ->
  parseInt s = NaN.
Proof.
  intros H. unfold parseInt.
  destruct (trim_start_suffix s) as [p Hp].
  assert (Ht : forall c, In c (list_ascii_of_string (trim_start s)) -> is_digit c = false).
  { apply (no_digit_app p). now rewrite <- Hp. }
  destruct (trim_start s) as [|c r]; [reflexivity|].
  assert (Hr : forall c', In c' (list_ascii_of_string r) -> is_digit c' = false)
    by (intros c' Hc'; apply Ht; now right).
  assert (Hc : is_digit c = false) by (apply Ht; now left).
  destruct (Ascii.eqb c "-"%char), (Ascii.eqb c "+"%char);
    [destruct r as [|c' r']; [reflexivity|]; simpl; now rewrite (Hr c' (or_introl eq_refl))..|].
  simpl. now rewrite Hc.
Qed.

(* ------------------------------------------------------------------ *)
(** * Further properties of [normalizeUrl] *)

(** [normalizeUrl] is case-insensitive: its result is in lower case, and
    lower-casing the input first changes nothing. *)
Theorem normalizeUrl_lowercase (u : string) :
  toLowerCase (normalizeUrl u) = normalizeUrl u
  /\ normalizeUrl (toLowerCase u) = normalizeUrl u.
Proof.
  split; [|unfold normalizeUrl; now rewrite toLowerCase_idem].
  unfold normalizeUrl. set (s := strip_trailing_slash (toLowerCase u)).
  assert (Hlow : toLowerCase s = s).
  { subst s. now rewrite toLowerCase_strip, toLowerCase_idem. }
  rewrite toLowerCase_join, <- fold_date_parts_lower.
  now rewrite map_lower_id by now apply split_slash_lowered.
Qed.

Lemma ends_with_slash_lower (s : string) :
  ends_with_slash (toLowerCase s) = ends_with_slash s.
Proof.
  induction s as [|c s IH]; [reflexivity|].
  destruct s as [|c' s]; [apply lower_char_slash|]. exact IH.
Qed.

(** One trailing slash does not matter to [normalizeUrl]: a URL not
    ending in a slash normalizes like the same URL with one appended. *)
Theorem normalizeUrl_trailing_slash (u : string) :
  ends_with_slash u = false -> normalizeUrl (u ++ "/") = normalizeUrl u.
Proof.
  intros H. unfold normalizeUrl. rewrite toLowerCase_app. simpl (toLowerCase "/").
  rewrite strip_app_slash. simpl.
  rewrite (strip_no_end (toLowerCase u)) by now rewrite ends_with_slash_lower.
  reflexivity.
Qed.

Lemma split_slash_lower (s : string) :
  split_slash (toLowerCase s) = map toLowerCase (split_slash s).
Proof.
  induction s as [|c s IH]; [reflexivity|]. simpl. rewrite lower_char_slash, IH.
  destruct (is_slash c); [reflexivity|].
  destruct (split_slash s) as [|h t] eqn:E; [now destruct (split_slash_nonempty s)|].
  reflexivity.
Qed.

Lemma ends_with_slash_app (s : string) :
  ends_with_slash s = true -> exists X, s = X ++ "/".
Proof.
  induction s as [|c s IH]; [discriminate|].
  destruct s as [|c' s].
  - simpl. unfold is_slash. intros H. apply Ascii.eqb_eq in H. subst. now exists EmptyString.
  - intros H. destruct (IH H) as [X HX]. exists (String c X). simpl. now rewrite HX.
Qed.

Lemma split_strip_incl (s x : string) :
  In x (split_slash (strip_trailing_slash s)) -> In x (split_slash s).
Proof.
  destruct (ends_with_slash s) eqn:E; [|now rewrite strip_no_end].
  destruct (ends_with_slash_app s E) as [X ->].
  rewrite strip_app_slash. simpl. rewrite split_slash_app. intros H.
  apply in_or_app. now left.
Qed.

Lemma fold_date_parts_no_year (L : list string) :
  forallb (fun x => negb (is_year x)) L = true -> fold_date_parts L = L.
Proof.
  induction L as [|p L IH]; [reflexivity|]. simpl.
  intros H. apply andb_prop in H as [Hp HL]. apply negb_true_iff in Hp.
  rewrite Hp. f_equal. now apply IH.
Qed.

(** Without a four-digit segment, [normalizeUrl] only lower-cases the URL
    and drops one trailing slash. *)
Theorem normalizeUrl_no_year (u : string) :
  forallb (fun x => negb (is_year x)) (split_slash u) = true ->
  normalizeUrl u = strip_trailing_slash (toLowerCase u).
Proof.
  intros H. unfold normalizeUrl.
  rewrite fold_date_parts_no_year; [apply join_split|].
  apply forallb_forall. intros x Hx. apply split_strip_incl in Hx.
  rewrite split_slash_lower in Hx. apply in_map_iff in Hx as [y [<- Hy]].
  rewrite is_year_lower. rewrite forallb_forall in H. now apply H.
Qed.

Lemma fold_date_parts_app_year (y : string) (pre X : list string) :
  is_year y = true ->
  fold_date_parts (pre ++ y :: X) = (fold_date_parts pre ++ fold_date_parts (y :: X))%list.
Proof.
  intros Hy. pose proof (year_not_month_day y Hy) as Hym. revert pre.
  induction pre as [pre IH] using list_strong_ind.
  destruct pre as [|p r]; [reflexivity|].
  destruct (is_year p) eqn:Hp.
  2:{ rewrite <- ?app_comm_cons; cbn [app]. rewrite (fold_not_year p (r ++ y :: X)), (fold_not_year p r) by exact Hp.
      cbn [app]. f_equal.
      apply IH. simpl. lia. }
  destruct r as [|m r'].
  - rewrite <- ?app_comm_cons; cbn [app]. rewrite fold_year_alone, fold_year_last by assumption. reflexivity.
  - destruct (is_month_day m) eqn:Hm.
    + destruct r' as [|d r''].
      * rewrite <- ?app_comm_cons; cbn [app]. rewrite fold_year_month, fold_year_month_end by assumption. reflexivity.
      * destruct (is_month_day d) eqn:Hd.
        -- rewrite <- ?app_comm_cons; cbn [app]. rewrite (fold_year_month_day p m d (r'' ++ y :: X)),
             (fold_year_month_day p m d r'') by assumption. cbn [app]. do 2 f_equal.
           apply IH. simpl. lia.
        -- rewrite <- ?app_comm_cons; cbn [app]. rewrite (fold_year_month p m d (r'' ++ y :: X)),
             (fold_year_month p m d r'') by assumption. cbn [app]. do 2 f_equal.
           change (d :: (r'' ++ y :: X))%list with ((d :: r'') ++ y :: X)%list.
           apply IH. simpl. lia.
    + rewrite <- ?app_comm_cons; cbn [app]. rewrite (fold_year_alone p m (r' ++ y :: X)), (fold_year_alone p m r')
        by assumption. cbn [app]. do 2 f_equal.
      change (m :: (r' ++ y :: X))%list with ((m :: r') ++ y :: X)%list.
      apply IH. simpl. lia.
Qed.

Lemma lower_char_digit_id (c : ascii) : is_digit c = true -> lower_char c = c.
Proof. destruct c as [[] [] [] [] [] [] [] []]; easy. Qed.

Lemma toLowerCase_year (y : string) : is_year y = true -> toLowerCase y = y.
Proof.
  destruct y as [|a [|b [|c [|d [|e y]]]]]; try discriminate. simpl.
  intros H. apply andb_prop in H as [H Hd]. apply andb_prop in H as [H Hc].
  apply andb_prop in H as [Ha Hb].
  now rewrite !lower_char_digit_id.
Qed.

Lemma digit_not_slash (c : ascii) : is_digit c = true -> is_slash c = false.
Proof. destruct c as [[] [] [] [] [] [] [] []]; easy. Qed.

Lemma year_no_slash (y : string) : is_year y = true -> has_slash y = false.
Proof.
  destruct y as [|a [|b [|c [|d [|e y]]]]]; try discriminate.
  intros H. apply andb_prop in H as [H Hd]. apply andb_prop in H as [H Hc].
  apply andb_prop in H as [Ha Hb]. simpl.
  now rewrite !digit_not_slash.
Qed.

Lemma toLowerCase_empty (s : string) : toLowerCase s = EmptyString -> s = EmptyString.
Proof. destruct s; easy. Qed.

(** [normalizeUrl] works segment by segment: before a year segment
    (with no slash in the segments before it) the URL normalizes in two
    independent halves joined by a slash; a lone year segment is
    duplicated. *)
Theorem normalizeUrl_splits_at_year (pre T : list string) (y : string) :
  pre <> [] -> Forall (fun x => has_slash x = false) pre ->
  ends_with_slash (join_slash pre) = false -> is_year y = true ->
  normalizeUrl (join_slash (pre ++ y :: T))
  = normalizeUrl (join_slash pre) ++ String "/" (normalizeUrl (join_slash (y :: T)))
  /\ normalizeUrl y = y ++ String "/" y.
Proof.
  intros Hpre HF Hend Hy. split.
  2:{ unfold normalizeUrl. rewrite toLowerCase_year by exact Hy.
      rewrite strip_no_end by (apply no_slash_no_end, year_no_slash, Hy).
      rewrite split_slash_no_slash by (apply year_no_slash, Hy).
      rewrite fold_year_last by exact Hy. reflexivity. }
  rewrite normalizeUrl_join_app by (assumption || discriminate).
  assert (Htp : tail_parts (y :: T) = split_slash (strip_trailing_slash (toLowerCase (join_slash (y :: T))))).
  { unfold tail_parts. destruct (String.eqb _ EmptyString) eqn:E; [|reflexivity].
    apply String.eqb_eq, toLowerCase_empty in E.
    destruct T; [|rewrite join_slash_cons2 in E];
      destruct y; [discriminate| |discriminate|]; discriminate. }
  destruct (tail_parts_head y T (year_no_slash y Hy)) as [Hnil|[t Ht]].
  { exfalso. rewrite Htp in Hnil. now apply (split_slash_nonempty _ Hnil). }
  rewrite Ht, toLowerCase_year by exact Hy.
  rewrite fold_date_parts_app_year by exact Hy.
  rewrite join_slash_app.
  2:{ apply fold_date_parts_nonempty. destruct pre; [congruence|discriminate]. }
  2:{ apply fold_date_parts_nonempty. discriminate. }
  f_equal; [|f_equal].
  - unfold normalizeUrl. rewrite toLowerCase_join.
    rewrite strip_no_end by (rewrite <- toLowerCase_join, ends_with_slash_lower; exact Hend).
    rewrite split_join; [reflexivity| |].
    + destruct pre; [congruence|discriminate].
    + apply Forall_map. eapply Forall_impl; [|exact HF].
      intros x Hx. now rewrite has_slash_lower.
  - unfold normalizeUrl. rewrite <- Htp, Ht, toLowerCase_year by exact Hy. reflexivity.
Qed.

(* ------------------------------------------------------------------ *)
(** * Further properties of [csvToJson] *)

Lemma existsb_eqb_in (k : string) (l : list string) :
  existsb (String.eqb k) l = true <-> In k l.
Proof.
  rewrite existsb_exists. split.
  - intros [x [Hx E]]. apply String.eqb_eq in E. now subst.
  - intros H. exists k. split; [exact H|apply String.eqb_refl].
Qed.

Lemma keys_own_set (k : string) (v : ViewRecord.t) (l : list (string * ViewRecord.t)) :
  map fst (own_set k v l)
  = if existsb (String.eqb k) (map fst l) then map fst l else (map fst l ++ [k])%list.
Proof.
  induction l as [|[k' v'] l IH]; [reflexivity|]. simpl.
  destruct (String.eqb k k') eqn:E; simpl.
  - apply String.eqb_eq in E. now subst.
  - rewrite IH. now destruct (existsb (String.eqb k) (map fst l)).
Qed.

Lemma own_get_none (k : string) (l : list (string * ViewRecord.t)) :
  own_get k l = None <-> existsb (String.eqb k) (map fst l) = false.
Proof.
  induction l as [|[k' v'] l IH]; simpl; [easy|].
  destruct (String.eqb k k'); [easy|exact IH].
Qed.

Lemma filter_snoc {A : Type} (f : A -> bool) (l : list A) (x : A) :
  filter f (l ++ [x])%list = if f x then (filter f l ++ [x])%list else filter f l.
Proof. rewrite filter_app. simpl. destruct (f x); [reflexivity|apply app_nil_r]. Qed.

Lemma first_keys_snoc (ks : list string) (k : string) :
  first_keys (ks ++ [k])%list
  = if existsb (String.eqb k) (first_keys ks) then first_keys ks
    else (first_keys ks ++ [k])%list.
Proof. unfold first_keys. now rewrite fold_left_app. Qed.

Lemma existsb_filter_proto (k : string) (l : list string) :
  String.eqb k proto_key = false ->
  existsb (String.eqb k) (filter (fun k' => negb (String.eqb k' proto_key)) l)
  = existsb (String.eqb k) l.
Proof.
  intros Hk. induction l as [|k' l IH]; simpl; [reflexivity|].
  destruct (String.eqb k' proto_key) eqn:E; simpl; rewrite IH; [|reflexivity].
  destruct (String.eqb k k') eqn:E'; [|reflexivity].
  apply String.eqb_eq in E, E'. subst. now rewrite String.eqb_refl in Hk.
Qed.

(** The URL keys the rows assign, in row order. *)
Definition assigned_keys (rows : list (list string)) : list string :=
  flat_map (fun row => match row_key row with Some k => [k] | None => [] end) rows.

Lemma csvToJson_snoc (rows : list (list string)) (row : list string) :
  csvToJson (rows ++ [row]) = csv_row_step (csvToJson rows) row.
Proof. unfold csvToJson. now rewrite fold_left_app. Qed.

Lemma existsb_filter_in (k : string) (f : string -> bool) (l : list string) :
  existsb (String.eqb k) (filter f l) = true -> existsb (String.eqb k) l = true.
Proof.
  rewrite !existsb_eqb_in. intros H. now apply filter_In in H.
Qed.

Lemma csvToJson_own_keys (rows : list (list string)) :
  map fst (own (viewsData (csvToJson rows)))
  = filter (fun k => negb (String.eqb k proto_key)) (first_keys (assigned_keys rows)).
Proof.
  induction rows as [|row rows IH] using rev_ind; [reflexivity|].
  rewrite csvToJson_snoc, csv_row_step_entry. unfold assigned_keys. rewrite flat_map_app.
  fold (assigned_keys rows). cbn [flat_map]. rewrite app_nil_r. unfold row_key.
  destruct (row_entry row) as [[k v]|]; cbn [option_map fst viewsData];
    [|now rewrite app_nil_r].
  rewrite first_keys_snoc. unfold js_set.
  set (F := first_keys (assigned_keys rows)) in *.
  destruct (own_get k (own (viewsData (csvToJson rows)))) eqn:Eg.
  - simpl. rewrite keys_own_set.
    assert (Hin : existsb (String.eqb k) (map fst (own (viewsData (csvToJson rows)))) = true)
      by (destruct (existsb _ _) eqn:E; [reflexivity|apply own_get_none in E; congruence]).
    rewrite Hin, IH. rewrite IH in Hin. apply existsb_filter_in in Hin. now rewrite Hin.
  - apply own_get_none in Eg.
    destruct (String.eqb k proto_key) eqn:Ep; simpl.
    + rewrite IH. destruct (existsb _ F); [reflexivity|].
      rewrite filter_snoc, Ep. reflexivity.
    + rewrite keys_own_set, Eg, IH.
      rewrite IH, existsb_filter_proto in Eg by exact Ep. rewrite Eg, filter_snoc, Ep.
      reflexivity.
Qed.

Lemma NoDup_first_keys (ks : list string) : NoDup (first_keys ks).
Proof.
  induction ks as [|k ks IH] using rev_ind; [constructor|].
  rewrite first_keys_snoc. destruct (existsb _ _) eqn:E; [exact IH|].
  apply NoDup_app; [exact IH|repeat constructor; easy|].
  intros x Hx [<-|[]]. apply existsb_eqb_in in Hx. congruence.
Qed.

Lemma filter_partition {A : Type} (f : A -> bool) (l : list A) :
  Permutation (filter f l ++ filter (fun x => negb (f x)) l)%list l.
Proof.
  induction l as [|a l IH]; simpl; [reflexivity|].
  destruct (f a); simpl.
  - now apply perm_skip.
  - rewrite <- Permutation_middle. now apply perm_skip.
Qed.

Lemma object_keys_perm (m : views_data) : Permutation (object_keys m) (map fst (own m)).
Proof.
  unfold object_keys. rewrite sort_indices_perm. apply filter_partition.
Qed.

Lemma insert_index_hd (a k : string) (l : list string) :
  HdRel (fun x y => (index_of x <= index_of y)%Z) a l ->
  (index_of a <= index_of k)%Z ->
  HdRel (fun x y => (index_of x <= index_of y)%Z) a (insert_index k l).
Proof.
  intros Hl Hk. destruct l as [|k' l]; simpl; [now constructor|].
  destruct (index_of k <=? index_of k')%Z; constructor; [exact Hk|].
  now inversion Hl.
Qed.

Lemma insert_index_sorted (k : string) (l : list string) :
  Sorted (fun x y => (index_of x <= index_of y)%Z) l ->
  Sorted (fun x y => (index_of x <= index_of y)%Z) (insert_index k l).
Proof.
  induction l as [|k' l IH]; simpl; intros Hs; [now repeat constructor|].
  destruct (index_of k <=? index_of k')%Z eqn:E.
  - constructor; [exact Hs|]. constructor. now apply Z.leb_le.
  - apply Sorted_inv in Hs as [Hs Hhd]. constructor; [now apply IH|].
    apply insert_index_hd; [exact Hhd|]. apply Z.leb_gt in E. lia.
Qed.

Lemma sort_indices_sorted (l : list string) :
  Sorted (fun x y => (index_of x <= index_of y)%Z) (sort_indices l).
Proof.
  induction l as [|k l IH]; simpl; [constructor|]. now apply insert_index_sorted.
Qed.

(** [Object.keys(viewsData)] lists the URL keys of the rows of three or
    more fields, each once, except [__proto__], which never becomes an own
    key: first the keys that are array indices, in ascending numeric
    order, then the other keys in the order of their first occurrence. *)
Theorem csvToJson_keys (rows : list (list string)) :
  let K := filter (fun k => negb (String.eqb k proto_key)) (first_keys (assigned_keys rows)) in
  exists I,
    object_keys (viewsData (csvToJson rows))
      = (I ++ filter (fun k => negb (is_array_index k)) K)%list
    /\ Permutation I (filter is_array_index K)
    /\ Sorted (fun a b => (index_of a <= index_of b)%Z) I
    /\ NoDup (object_keys (viewsData (csvToJson rows))).
Proof.
  intros K. exists (sort_indices (filter is_array_index K)).
  assert (HK : map fst (own (viewsData (csvToJson rows))) = K) by apply csvToJson_own_keys.
  split; [unfold object_keys; now rewrite HK|].
  split; [apply sort_indices_perm|].
  split; [apply sort_indices_sorted|].
  eapply Permutation_NoDup; [symmetry; apply object_keys_perm|].
  rewrite HK. apply NoDup_filter, NoDup_first_keys.
Qed.

(** [viewsData[k]] is a record exactly when some row assigns that record
    to the key and no later row assigns the same key. *)
Theorem csvToJson_records (rows : list (list string)) (k : string) (r : ViewRecord.t) :
  js_get k (viewsData (csvToJson rows)) = Some r
  <-> exists pre row post, rows = (pre ++ row :: post)%list /\ row_entry row = Some (k, r)
      /\ forall row', In row' post -> row_key row' <> Some k.
Proof.
  split.
  - induction rows as [|row0 rows IH] using rev_ind.
    { unfold js_get. simpl. now destruct (String.eqb k proto_key). }
    rewrite csvToJson_snoc, csv_row_step_entry.
    destruct (row_entry row0) as [[k0 v0]|] eqn:E0; simpl.
    + rewrite js_get_set. destruct (String.eqb k k0) eqn:Ek.
      * apply String.eqb_eq in Ek. subst k0. intros [= ->].
        exists rows, row0, []. split; [reflexivity|]. split; [exact E0|easy].
      * intros Hin. destruct (IH Hin) as [pre [row [post [-> [Hrow Hpost]]]]].
        exists pre, row, (post ++ [row0])%list. split; [now rewrite <- app_assoc|].
        split; [exact Hrow|]. intros row' Hr. apply in_app_or in Hr as [Hr|[<-|[]]].
        -- now apply Hpost.
        -- unfold row_key. rewrite E0. simpl. intros [= E]. subst. now rewrite String.eqb_refl in Ek.
    + intros Hin. destruct (IH Hin) as [pre [row [post [-> [Hrow Hpost]]]]].
      exists pre, row, (post ++ [row0])%list. split; [now rewrite <- app_assoc|].
      split; [exact Hrow|]. intros row' Hr. apply in_app_or in Hr as [Hr|[<-|[]]].
      * now apply Hpost.
      * unfold row_key. now rewrite E0.
  - intros [pre [row [post [-> [Hrow Hpost]]]]].
    unfold csvToJson. rewrite fold_left_app. simpl.
    rewrite csv_rows_other_keys.
    + rewrite csv_row_step_entry, Hrow. simpl. now rewrite js_get_set, String.eqb_refl.
    + intros row' r' Hr' E. apply (Hpost row' Hr'). unfold row_key. now rewrite E.
Qed.

(* ------------------------------------------------------------------ *)
(** * Further properties of [fetchWordPressPosts] *)



Lemma find_app_none {A : Type} (f : A -> bool) (l1 l2 : list A) :
  (forall x, In x l1 -> f x = false) -> find f (l1 ++ l2) = find f l2.
Proof.
  induction l1 as [|a l1 IH]; simpl; [reflexivity|].
  intros H. rewrite H by now left. apply IH. intros x Hx. apply H. now right.
Qed.

(** The views of a post come from the first key of [viewsData], in the
    order of [Object.keys], that normalizes to the post's normalized link:
    its record's views, except that a matching empty key gives 0. *)
Theorem post_views_first_match (vd : views_data) (pre post : list string) (k : string)
    (r : ViewRecord.t) (postUrl : string) :
  object_keys vd = (pre ++ k :: post)%list ->
  (forall k', In k' pre -> normalizeUrl k' <> normalizeUrl postUrl) ->
  normalizeUrl k = normalizeUrl postUrl ->
  js_get k vd = Some r ->
  post_views vd postUrl
  = Some (if String.eqb k EmptyString then Int 0 else ViewRecord.views r).
Proof.
  intros Hkeys Hpre Hk Hr. unfold post_views, find_matched_url.
  rewrite Hkeys, find_app_none.
  2:{ intros x Hx. apply String.eqb_neq. now apply Hpre. }
  simpl. rewrite Hk, String.eqb_refl.
  destruct (String.eqb k EmptyString); [reflexivity|].
  now rewrite Hr.
Qed.

(** Every entry of [fetchWordPressPosts] comes from a post of a fulfilled
    request for one of the requested post types: its id, title and link
    are the post's, its date is the date part of the post's ISO date, and
    its author is the embedded name or [Unknown], never empty. *)
Theorem fetchWordPressPosts_entry_source
    (axios_get : string -> list (string * string) -> fetch_result)
    (toISOString : string -> option string) (baseUrl : string)
    (postTypes : list string) (afterDate : option string) (page perPage : Z)
    (vd : views_data) (e : Entry.t) :
  In e (fetchWordPressPosts axios_get toISOString baseUrl postTypes afterDate page perPage vd) ->
  exists data p iso,
    In (Entry.type e) postTypes
    /\ axios_get (baseUrl ++ "/wp-json/wp/v2/" ++ Entry.type e)
         (request_params page perPage afterDate) = Fetched data
    /\ In p data /\ toISOString (post_date p) = Some iso
    /\ Entry.id e = post_id p /\ Entry.title e = post_title_rendered p
    /\ Entry.url e = post_link p /\ Entry.publication_date e = before_T iso
    /\ Entry.author e = author_or_unknown (post_author_name p)
    /\ Entry.author e <> EmptyString.
Proof.
  intros He. unfold fetchWordPressPosts in He. rewrite fetch_loop in He.
  simpl in He. apply in_concat in He as [l [Hl He]].
  apply in_map_iff in Hl as [pt [<- Hpt]].
  unfold category_entries in He. destruct (axios_get _ _) as [data|] eqn:Eg; [|easy].
  apply push_posts_in in He as [[]|[p [Hp Hmk]]].
  unfold make_entry in Hmk.
  destruct (post_views vd (post_link p)) as [v|]; [|discriminate].
  destruct (toISOString (post_date p)) as [iso|] eqn:Ei; [|discriminate].
  injection Hmk as <-. simpl. exists data, p, iso.
  repeat split; try assumption.
  unfold author_or_unknown. destruct (post_author_name p) as [n|]; [|discriminate].
  destruct (String.eqb n EmptyString) eqn:En; [discriminate|].
  apply String.eqb_neq in En. exact En.
Qed.

Lemma make_entry_bad_date (toISOString : string -> option string) (vd : views_data)
    (pt : string) (p : post) :
  toISOString (post_date p) = None -> make_entry toISOString vd pt p = None.
Proof.
  intros H. unfold make_entry. destruct (post_views vd (post_link p)); [|reflexivity].
  now rewrite H.
Qed.

Lemma push_posts_stop (toISOString : string -> option string) (vd : views_data)
    (pt : string) (pre rest : list post) (p : post) (acc : list Entry.t) :
  make_entry toISOString vd pt p = None ->
  push_posts toISOString vd pt (pre ++ p :: rest) acc = push_posts toISOString vd pt pre acc.
Proof.
  intros H. revert acc. induction pre as [|q pre IH]; intros acc; simpl.
  - now rewrite H.
  - destruct (make_entry toISOString vd pt q); [apply IH|reflexivity].
Qed.

(** An invalid post date ends a category: only the posts before it are
    added, and when they all have valid dates each of them adds one entry. *)
Theorem fetch_category_stops_at_bad_date
    (axios_get : string -> list (string * string) -> fetch_result)
    (toISOString : string -> option string) (baseUrl : string)
    (afterDate : option string) (page perPage : Z) (vd : views_data)
    (allPosts : list Entry.t) (postType : string) (pre rest : list post) (p : post) :
  axios_get (baseUrl ++ "/wp-json/wp/v2/" ++ postType) (request_params page perPage afterDate)
    = Fetched (pre ++ p :: rest) ->
  toISOString (post_date p) = None ->
  fetch_category axios_get toISOString baseUrl afterDate page perPage vd allPosts postType
  = (allPosts ++ push_posts toISOString vd postType pre [])%list
  /\ ((forall q, In q pre -> toISOString (post_date q) <> None) ->
      length (fetch_category axios_get toISOString baseUrl afterDate page perPage vd
                allPosts postType) = length allPosts + length pre).
Proof.
  intros Hg Hd. unfold fetch_category. rewrite Hg.
  rewrite push_posts_stop by now apply make_entry_bad_date.
  split; [apply push_posts_acc|]. intros Hpre. now apply push_posts_length.
Qed.

Lemma push_posts_length_le (toISOString : string -> option string) (vd : views_data)
    (pt : string) (data : list post) (acc : list Entry.t) :
  length (push_posts toISOString vd pt data acc) <= length acc + length data.
Proof.
  revert acc. induction data as [|p data IH]; intros acc; simpl; [lia|].
  destruct (make_entry toISOString vd pt p) as [e|].
  - specialize (IH (acc ++ [e])%list). rewrite length_app in IH. simpl in IH. lia.
  - lia.
Qed.

(** [fetchWordPressPosts] returns at most as many entries as the
    fulfilled responses hold posts; a rejected request contributes none. *)
Theorem fetchWordPressPosts_length_bound
    (axios_get : string -> list (string * string) -> fetch_result)
    (toISOString : string -> option string) (baseUrl : string)
    (postTypes : list string) (afterDate : option string) (page perPage : Z)
    (vd : views_data) :
  length (fetchWordPressPosts axios_get toISOString baseUrl postTypes afterDate page perPage vd)
  <= list_sum (map (fun pt =>
       match axios_get (baseUrl ++ "/wp-json/wp/v2/" ++ pt)
               (request_params page perPage afterDate) with
       | Fetched data => length data
       | FetchError _ => 0
       end) postTypes).
Proof.
  unfold fetchWordPressPosts. rewrite fetch_loop. simpl.
  induction postTypes as [|pt pts IH]; simpl; [lia|].
  rewrite length_app. unfold category_entries at 1.
  destruct (axios_get _ _) as [data|]; simpl.
  - pose proof (push_posts_length_le toISOString vd pt data []). simpl in H. lia.
  - lia.
Qed.

(* ------------------------------------------------------------------ *)
(** * Further properties of [generateMarkdownOutput] *)

Lemma count_char_app (x : ascii) (a b : string) :
  count_char x (a ++ b) = count_char x a + count_char x b.
Proof. induction a as [|c a IH]; simpl; [reflexivity|]. rewrite IH. lia. Qed.

Lemma escape_pipes_no_pipe (s : string) : count_char "|" (escape_pipes s) = 0.
Proof.
  induction s as [|c s IH]; simpl; [reflexivity|].
  destruct (Ascii.eqb c "|") eqn:E; simpl; [exact IH|]. now rewrite E.
Qed.

(** The escaped title holds no [|]; each [|] becomes the five characters
    longer [&#124;], and a title without [|] is unchanged. *)
Theorem escape_pipes_spec (s : string) :
  count_char "|" (escape_pipes s) = 0
  /\ String.length (escape_pipes s) = String.length s + 5 * count_char "|" s
  /\ (count_char "|" s = 0 -> escape_pipes s = s).
Proof.
  induction s as [|c s [IH1 [IH2 IH3]]]; simpl; [easy|].
  destruct (Ascii.eqb c "|") eqn:E; simpl.
  - split; [exact IH1|]. split; [lia|]. discriminate.
  - rewrite E. split; [exact IH1|]. split; [lia|]. intros H. now rewrite IH3.
Qed.

(** The characters [`${n}`] can contain. *)
Definition number_chars : string := "0123456789-.e+NaInfity".

Section NumberChars.
Variable x : ascii.
Hypothesis Hx : forall c, In c (list_ascii_of_string number_chars) -> Ascii.eqb c x = false.

Lemma count_string_of_uint (d : Decimal.uint) :
  count_char x (NilEmpty.string_of_uint d) = 0.
Proof.
  induction d; cbn [NilEmpty.string_of_uint count_char]; auto;
    rewrite Hx by (simpl; tauto); exact IHd.
Qed.

Lemma count_Z_to_string (z : Z) : count_char x (Z_to_string z) = 0.
Proof.
  unfold Z_to_string. destruct (Z.to_int z); cbn [NilEmpty.string_of_int].
  - apply count_string_of_uint.
  - change (count_char x (String "-" (NilEmpty.string_of_uint d)) = 0).
    cbn [count_char]. rewrite Hx by (simpl; tauto). apply count_string_of_uint.
Qed.

Lemma count_positive_to_string (m : Z) : count_char x (positive_to_string m) = 0.
Proof.
  unfold positive_to_string. cbv zeta.
  destruct (shortest_value m <? 10 ^ 21)%Z; [apply count_Z_to_string|].
  set (n := String.length (Z_to_string (shortest_value m))).
  pose proof (count_Z_to_string (strip_zeros n (shortest_value m))) as Hs.
  assert (He : count_char x ("e+" ++ Z_to_string (Z.of_nat n - 1)) = 0).
  { cbn [String.append count_char]. rewrite !Hx by (simpl; tauto). apply count_Z_to_string. }
  destruct (Z_to_string (strip_zeros n (shortest_value m))) as [|c rest]; [exact He|].
  cbn [count_char] in Hs. destruct (Ascii.eqb c x) eqn:Ec; [discriminate|].
  destruct rest as [|c' rest']; cbn [count_char]; rewrite Ec.
  - exact He.
  - rewrite !count_char_app. cbn [count_char] in Hs |- *.
    rewrite (Hx "e"%char), (Hx "+"%char) by (simpl; tauto).
    try rewrite (Hx "."%char) by (simpl; tauto). try rewrite count_Z_to_string.
    destruct (Ascii.eqb c' x); simpl in Hs |- *; lia.
Qed.

Lemma count_num_to_string (n : num) : count_char x (num_to_string n) = 0.
Proof.
  destruct n as [|z| |[]]; cbn [num_to_string].
  - cbn [count_char]. rewrite !Hx by (simpl; tauto). reflexivity.
  - destruct (z =? 0)%Z; [cbn [count_char]; rewrite !Hx by (simpl; tauto); reflexivity|].
    destruct (z <? 0)%Z; [|apply count_positive_to_string].
    change (count_char x (String "-" (positive_to_string (- z))) = 0).
    cbn [count_char]. rewrite Hx by (simpl; tauto). apply count_positive_to_string.
  - cbn [count_char]. rewrite !Hx by (simpl; tauto). reflexivity.
  - cbn [count_char]. rewrite !Hx by (simpl; tauto). reflexivity.
  - cbn [count_char]. rewrite !Hx by (simpl; tauto). reflexivity.
Qed.
End NumberChars.

Lemma number_chars_pipe :
  forall c, In c (list_ascii_of_string number_chars) -> Ascii.eqb c "|" = false.
Proof. intros c Hc. simpl in Hc. repeat destruct Hc as [<-|Hc]; try reflexivity. destruct Hc. Qed.

Lemma number_chars_newline :
  forall c, In c (list_ascii_of_string number_chars) -> Ascii.eqb c "010" = false.
Proof. intros c Hc. simpl in Hc. repeat destruct Hc as [<-|Hc]; try reflexivity. destruct Hc. Qed.

(** A report row has exactly seven [|] of its own: the title never adds
    one, and only the date, URL, author and type fields can. *)
Theorem render_row_pipes (e : Entry.t) :
  count_char "|" (render_row e)
  = 7 + count_char "|" (Entry.publication_date e) + count_char "|" (Entry.url e)
    + count_char "|" (Entry.author e) + count_char "|" (Entry.type e).
Proof.
  unfold render_row. rewrite !count_char_app.
  rewrite escape_pipes_no_pipe.
  rewrite !(count_num_to_string _ number_chars_pipe). simpl. lia.
Qed.

Lemma sort_by_date_sorted (l : list Entry.t) :
  Sorted date_le l -> sort_by_date l = l.
Proof.
  induction 1 as [|x l Hs IH Hhd]; [reflexivity|]. simpl. rewrite IH.
  destruct l as [|y l]; [reflexivity|]. simpl.
  inversion Hhd as [|? ? Hxy]; subst. unfold date_le in Hxy.
  destruct (date_cmp x y); congruence.
Qed.

(** [generateMarkdownOutput] on the array it has already sorted gives the
    same markdown and leaves the array as it is. *)
Theorem generateMarkdownOutput_rerun (h : heap) (posts : nat) (inputDate : string) :
  let h' := snd (generateMarkdownOutput h posts inputDate) in
  fst (generateMarkdownOutput h' posts inputDate) = fst (generateMarkdownOutput h posts inputDate)
  /\ forall r, snd (generateMarkdownOutput h' posts inputDate) r = h' r.
Proof.
  intros h'. unfold h', generateMarkdownOutput, heap_set. simpl.
  rewrite PeanoNat.Nat.eqb_refl.
  destruct (sort_by_date_props (h posts)) as [Hs _].
  rewrite (sort_by_date_sorted _ Hs). split; [reflexivity|].
  intros r. destruct (Nat.eqb r posts); reflexivity.
Qed.

(* ------------------------------------------------------------------ *)
(** * Properties of [main] *)

Lemma no_exit_app (l1 l2 pre post : list effect) (code : nat) :
  (forall c, ~ In (Exit c) l1) -> (l1 ++ l2 = pre ++ Exit code :: post)%list ->
  exists pre', l2 = (pre' ++ Exit code :: post)%list.
Proof.
  revert pre. induction l1 as [|x l1 IH]; intros pre Hn H; [eauto|].
  destruct pre as [|y pre].
  - simpl in H. injection H as -> _. exfalso. apply (Hn code). now left.
  - simpl in H. injection H as _ H. apply (IH pre); [|exact H].
    intros c Hc. apply (Hn c). now right.
Qed.

Lemma exits_last_nil : exits_last [].
Proof. intros [|? ?] ? ? H; discriminate. Qed.

Lemma exits_last_exit : exits_last [Exit 1].
Proof.
  intros [|x pre] code post H; simpl in H; injection H as H1 H2.
  - now subst.
  - destruct pre; discriminate.
Qed.

Lemma exits_last_app (l1 l2 : list effect) :
  (forall c, ~ In (Exit c) l1) -> exits_last l2 -> exits_last (l1 ++ l2).
Proof.
  intros Hn H2 pre code post H. destruct (no_exit_app l1 l2 pre post code Hn H) as [pre' E].
  exact (H2 pre' code post E).
Qed.

Lemma exits_last_cons (x : effect) (l : list effect) :
  (forall c, x <> Exit c) -> exits_last l -> exits_last (x :: l).
Proof.
  intros Hx H. apply (exits_last_app [x] l); [|exact H].
  intros c [E|[]]. now apply (Hx c).
Qed.

Lemma gets_no_exit (reqs : list (string * list (string * string))) (c : nat) :
  ~ In (Exit c) (map (fun r => HttpGet (fst r) (snd r)) reqs).
Proof. intros H. apply in_map_iff in H as [r [E _]]. discriminate. Qed.

Lemma has_slash_app (a b : string) : has_slash (a ++ b) = has_slash a || has_slash b.
Proof. induction a as [|c a IH]; simpl; [reflexivity|]. now rewrite IH, orb_assoc. Qed.

Lemma remove_unsafe_no_slash (s : string) : has_slash (remove_unsafe s) = false.
Proof.
  induction s as [|c s IH]; [reflexivity|]. simpl.
  destruct (filename_char c) eqn:E; [|exact IH]. simpl. rewrite IH, orb_false_r.
  revert E. destruct c as [[] [] [] [] [] [] [] []]; easy.
Qed.

(** What [main] does: it writes only [views_data.json] and the report,
    whose name has no slash; it only requests the REST endpoints of the
    three post types; and an exit, if any, is [process.exit(1)] and ends
    the run. *)
Theorem main_effects
    (axios_get : string -> list (string * string) -> fetch_result)
    (toISOString new_Date readFile : string -> option string)
    (csv_parse : string -> option (list (list string)))
    (json_stringify : views_data -> string) (writeFile_ok : string -> string -> bool)
    (argv2 : option string) :
  let effs := main axios_get toISOString new_Date readFile csv_parse json_stringify
                writeFile_ok argv2 in
  (forall path content, In (WriteFile path content) effs ->
     path = "views_data.json" \/ path = report_filename (date_input argv2))
  /\ has_slash (report_filename (date_input argv2)) = false
  /\ (forall url params, In (HttpGet url params) effs ->
        exists postType, In postType POST_TYPES /\ url = BASE_URL ++ "/wp-json/wp/v2/" ++ postType)
  /\ exits_last effs.
Proof.
  intros effs.
  assert (Hname : has_slash (report_filename (date_input argv2)) = false).
  { unfold report_filename, safeFilename. rewrite has_slash_app, remove_unsafe_no_slash. reflexivity. }
  assert (Hget : forall afterDate url params,
            In (HttpGet url params) (map (fun r => HttpGet (fst r) (snd r))
                  (fetch_requests BASE_URL POST_TYPES afterDate 1 100)) ->
            exists postType, In postType POST_TYPES
              /\ url = BASE_URL ++ "/wp-json/wp/v2/" ++ postType).
  { intros afterDate url params H. unfold fetch_requests in H. rewrite map_map in H.
    apply in_map_iff in H as [pt [E Hpt]]. injection E as <- _. eauto. }
  unfold effs, main. clear effs.
  destruct (readFile CSV_FILE) as [csv|].
  2:{ split; [intros ? ? [H|[]]; discriminate|]. split; [exact Hname|].
      split; [intros ? ? [H|[]]; discriminate|]. exact exits_last_exit. }
  destruct (csv_parse csv) as [records|].
  2:{ split; [intros ? ? [H|[]]; discriminate|]. split; [exact Hname|].
      split; [intros ? ? [H|[]]; discriminate|]. exact exits_last_exit. }
  set (json := json_stringify _).
  destruct (writeFile_ok "views_data.json" json); simpl negb; cbv iota.
  2:{ split; [intros ? ? [H|[H|[]]]; [injection H as <- _; now left|discriminate]|].
      split; [exact Hname|].
      split; [intros ? ? [H|[H|[]]]; discriminate|].
      apply exits_last_cons; [discriminate|exact exits_last_exit]. }
  destruct (resolve_after_date new_Date (date_input argv2)) as [afterDate|].
  2:{ split; [intros ? ? [H|[H|[]]]; [injection H as <- _; now left|discriminate]|].
      split; [exact Hname|].
      split; [intros ? ? [H|[H|[]]]; discriminate|].
      apply exits_last_cons; [discriminate|exact exits_last_exit]. }
  set (gets := map _ (fetch_requests BASE_URL POST_TYPES afterDate 1 100)).
  set (tail := match fetchWordPressPosts _ _ _ _ _ _ _ _ with [] => [] | _ :: _ => _ end).
  assert (Htail : (forall p c, In (WriteFile p c) tail -> p = report_filename (date_input argv2))
                  /\ (forall u ps, ~ In (HttpGet u ps) tail) /\ exits_last tail).
  { subst tail. destruct (fetchWordPressPosts _ _ _ _ _ _ _ _) as [|e es].
    - split; [easy|]. split; [easy|]. exact exits_last_nil.
    - destruct (writeFile_ok _ _).
      + split; [intros ? ? [H|[]]; now injection H as <- _|].
        split; [intros ? ? [H|[]]; discriminate|].
        apply exits_last_cons; [discriminate|exact exits_last_nil].
      + split; [intros ? ? [H|[H|[]]]; [now injection H as <- _|discriminate]|].
        split; [intros ? ? [H|[H|[]]]; discriminate|].
        apply exits_last_cons; [discriminate|exact exits_last_exit]. }
  destruct Htail as [Tw [Tg Te]].
  split; [|split; [exact Hname|split]].
  - intros p c [H|H]; [injection H as <- _; now left|].
    apply in_app_or in H as [H|H].
    + subst gets. apply in_map_iff in H as [r [E _]]. discriminate.
    + right. now apply (Tw p c).
  - intros u ps [H|H]; [discriminate|].
    apply in_app_or in H as [H|H]; [now apply (Hget afterDate u ps)|].
    exfalso. exact (Tg u ps H).
  - apply exits_last_cons; [discriminate|].
    apply exits_last_app; [apply gets_no_exit|exact Te].
Qed.

(** A date argument that does not parse stops [main] with exit code 1
    right after [views_data.json] is written, before any request. *)
Theorem main_bad_date
    (axios_get : string -> list (string * string) -> fetch_result)
    (toISOString new_Date readFile : string -> option string)
    (csv_parse : string -> option (list (list string)))
    (json_stringify : views_data -> string) (writeFile_ok : string -> string -> bool)
    (argv2 : option string) (csv : string) (records : list (list string)) :
  readFile CSV_FILE = Some csv -> csv_parse csv = Some records ->
  writeFile_ok "views_data.json" (json_stringify (viewsData (csvToJson records))) = true ->
  date_input argv2 <> EmptyString -> new_Date (date_input argv2) = None ->
  main axios_get toISOString new_Date readFile csv_parse json_stringify writeFile_ok argv2
  = [WriteFile "views_data.json" (json_stringify (viewsData (csvToJson records))); Exit 1].
Proof.
  intros Hr Hp Hw Hd Hn. unfold main. rewrite Hr, Hp, Hw. simpl negb. cbv iota.
  unfold resolve_after_date, parseDateInput.
  apply String.eqb_neq in Hd. rewrite Hd, Hn. reflexivity.
Qed.

Lemma report_filename_not_views (d : string) : report_filename d <> "views_data.json".
Proof.
  unfold report_filename. generalize (safeFilename d) as a. intros a H.
  repeat (destruct a as [|? a]; simpl in H; try discriminate; injection H as _ H).
Qed.

(** Once the date is resolved, [main] writes the report exactly when
    posts were found, with the markdown of those posts; it does not exit
    when none were found; and it sends one request per post type, in
    order. *)
Theorem main_report
    (axios_get : string -> list (string * string) -> fetch_result)
    (toISOString new_Date readFile : string -> option string)
    (csv_parse : string -> option (list (list string)))
    (json_stringify : views_data -> string) (writeFile_ok : string -> string -> bool)
    (argv2 : option string) (csv : string) (records : list (list string))
    (afterDate : option string) :
  readFile CSV_FILE = Some csv -> csv_parse csv = Some records ->
  writeFile_ok "views_data.json" (json_stringify (viewsData (csvToJson records))) = true ->
  resolve_after_date new_Date (date_input argv2) = Some afterDate ->
  let effs := main axios_get toISOString new_Date readFile csv_parse json_stringify
                writeFile_ok argv2 in
  let posts := fetchWordPressPosts axios_get toISOString BASE_URL POST_TYPES afterDate 1 100
                 (viewsData (csvToJson records)) in
  ((exists content, In (WriteFile (report_filename (date_input argv2)) content) effs)
     <-> posts <> [])
  /\ (forall content, In (WriteFile (report_filename (date_input argv2)) content) effs ->
        content = fst (generateMarkdownOutput (fun _ => posts) 0
                         (if String.eqb (date_input argv2) EmptyString then "all"
                          else date_input argv2)))
  /\ (posts = [] -> forall code, ~ In (Exit code) effs)
  /\ filter (fun x => match x with HttpGet _ _ => true | _ => false end) effs
     = map (fun r => HttpGet (fst r) (snd r)) (fetch_requests BASE_URL POST_TYPES afterDate 1 100).
Proof.
  intros Hr Hp Hw Ha effs posts. unfold effs, main. clear effs.
  rewrite Hr, Hp, Hw, Ha. simpl negb. cbv iota. fold posts.
  set (gets := map _ (fetch_requests BASE_URL POST_TYPES afterDate 1 100)).
  set (name := report_filename (date_input argv2)).
  assert (Hn : "views_data.json" <> name) by (apply not_eq_sym, report_filename_not_views).
  assert (Hg : forall c, ~ In (WriteFile name c) gets).
  { intros c H. apply in_map_iff in H as [r [E _]]. discriminate. }
  assert (Hgf : filter (fun x => match x with HttpGet _ _ => true | _ => false end) gets = gets).
  { apply forallb_filter_id. subst gets. apply forallb_forall. intros x Hx.
    apply in_map_iff in Hx as [r [<- _]]. reflexivity. }
  destruct posts as [|e es] eqn:Eposts.
  - rewrite app_nil_r. split; [|split; [|split]].
    + split; [|congruence]. intros [c [H|H]]; [congruence|]. exfalso. exact (Hg c H).
    + intros c [H|H]; [congruence|]. exfalso. exact (Hg c H).
    + intros _ code [H|H]; [discriminate|]. exact (gets_no_exit _ code H).
    + simpl. exact Hgf.
  - split; [|split; [|split]].
    + split; [|intros _]. { intros _. discriminate. }
      exists (fst (generateMarkdownOutput (fun _ => e :: es) 0
                    (if String.eqb (date_input argv2) EmptyString then "all" else date_input argv2))).
      right. apply in_or_app. right. now left.
    + intros c [H|H]; [congruence|]. apply in_app_or in H as [H|H]; [now apply Hg in H|].
      destruct H as [H|H]; [injection H as E; subst c; reflexivity|].
      revert H. match goal with |- In _ (if ?b then _ else _) -> _ => destruct b end;
        [intros []|intros [H|[]]; discriminate].
    + discriminate.
    + cbn [filter]. rewrite filter_app, Hgf. cbn [filter].
      match goal with |- context [if ?b then [] else [Exit 1]] => destruct b end;
        cbn [filter]; now rewrite app_nil_r.
Qed.

(* ------------------------------------------------------------------ *)
(** * The sort only depends on the order within each date *)

Lemma ascii_compare_N (a b : ascii) : Ascii.compare a b = N.compare (N_of_ascii a) (N_of_ascii b).
Proof. reflexivity. Qed.

Lemma string_compare_le_trans (a b c : string) :
  String.compare a b <> Gt -> String.compare b c <> Gt -> String.compare a c <> Gt.
Proof.
  revert b c. induction a as [|x a IH]; intros b c Hab Hbc.
  - destruct c; discriminate.
  - destruct b as [|y b]; [now contradiction Hab|].
    destruct c as [|z c]; [now contradiction Hbc|].
    simpl in *. rewrite !ascii_compare_N in *. revert Hab Hbc.
    destruct (N.compare_spec (N_of_ascii x) (N_of_ascii y)) as [Exy|Exy|Exy];
    destruct (N.compare_spec (N_of_ascii y) (N_of_ascii z)) as [Eyz|Eyz|Eyz];
    destruct (N.compare_spec (N_of_ascii x) (N_of_ascii z)) as [Exz|Exz|Exz];
    intros Hab Hbc; try easy; try lia.
    now apply (IH b).
Qed.

Lemma date_le_trans (a b c : Entry.t) : date_le a b -> date_le b c -> date_le a c.
Proof. unfold date_le, date_cmp, localeCompare. apply string_compare_le_trans. Qed.

Lemma date_le_refl (a : Entry.t) : date_le a a.
Proof. unfold date_le, date_cmp, localeCompare. now rewrite string_compare_refl. Qed.

Lemma date_le_antisym (a b : Entry.t) :
  date_le a b -> date_le b a -> Entry.publication_date a = Entry.publication_date b.
Proof.
  unfold date_le, date_cmp, localeCompare. intros H1 H2.
  rewrite String.compare_antisym in H2.
  apply String.compare_eq_iff.
  destruct (String.compare _ _); simpl in *; congruence.
Qed.

Lemma sorted_head_le (x : Entry.t) (l : list Entry.t) (y : Entry.t) :
  Sorted date_le (x :: l) -> In y (x :: l) -> date_le x y.
Proof.
  intros Hs Hy. apply Sorted_StronglySorted in Hs; [|exact date_le_trans].
  destruct Hy as [<-|Hy]; [apply date_le_refl|].
  inversion Hs as [|? ? _ Hall]; subst. rewrite Forall_forall in Hall. now apply Hall.
Qed.

Lemma filter_same_date_in (d : string) (l : list Entry.t) (e : Entry.t) :
  In e (filter (same_date d) l) -> In e l.
Proof. intros H. now apply filter_In in H as [H _]. Qed.

Lemma sorted_by_date_unique (a b : list Entry.t) :
  Sorted date_le a -> Sorted date_le b ->
  (forall d, filter (same_date d) a = filter (same_date d) b) -> a = b.
Proof.
  revert b. induction a as [|x a IH]; intros b Ha Hb Hf.
  - destruct b as [|y b]; [reflexivity|]. exfalso.
    specialize (Hf (Entry.publication_date y)). simpl in Hf.
    unfold same_date at 1 in Hf. rewrite String.eqb_refl in Hf. discriminate.
  - destruct b as [|y b].
    + exfalso. specialize (Hf (Entry.publication_date x)). simpl in Hf.
      unfold same_date at 1 in Hf. rewrite String.eqb_refl in Hf. discriminate.
    + assert (Hxy : date_le x y).
      { apply (sorted_head_le x a y Ha).
        apply (filter_same_date_in (Entry.publication_date y)). rewrite Hf.
        simpl. unfold same_date at 1. rewrite String.eqb_refl. now left. }
      assert (Hyx : date_le y x).
      { apply (sorted_head_le y b x Hb).
        apply (filter_same_date_in (Entry.publication_date x)). rewrite <- Hf.
        simpl. unfold same_date at 1. rewrite String.eqb_refl. now left. }
      pose proof (date_le_antisym x y Hxy Hyx) as Exy.
      assert (Hsx : forall d, same_date d x = same_date d y)
        by (intros d; unfold same_date; now rewrite Exy).
      assert (Hhead := Hf (Entry.publication_date x)). simpl in Hhead.
      rewrite <- Hsx in Hhead.
      assert (Hx : same_date (Entry.publication_date x) x = true)
        by (unfold same_date; apply String.eqb_refl).
      rewrite Hx in Hhead. injection Hhead as <- _.
      f_equal. apply IH.
      * now apply Sorted_inv in Ha as [Ha _].
      * now apply Sorted_inv in Hb as [Hb _].
      * intros d. specialize (Hf d). simpl in Hf.
        destruct (same_date d x); [now injection Hf|exact Hf].
Qed.

(** The report depends only on the order of the posts within each date:
    two arrays that agree on it give the same markdown and the same
    sorted array. *)
Theorem generateMarkdownOutput_per_date_order (h1 h2 : heap) (p1 p2 : nat)
    (inputDate : string) :
  (forall d, filter (same_date d) (h1 p1) = filter (same_date d) (h2 p2)) ->
  fst (generateMarkdownOutput h1 p1 inputDate) = fst (generateMarkdownOutput h2 p2 inputDate)
  /\ snd (generateMarkdownOutput h1 p1 inputDate) p1
     = snd (generateMarkdownOutput h2 p2 inputDate) p2.
Proof.
  intros Hf.
  destruct (sort_by_date_props (h1 p1)) as [S1 [_ F1]].
  destruct (sort_by_date_props (h2 p2)) as [S2 [_ F2]].
  assert (E : sort_by_date (h1 p1) = sort_by_date (h2 p2)).
  { apply sorted_by_date_unique; [exact S1|exact S2|].
    intros d. now rewrite F1, F2. }
  unfold generateMarkdownOutput, heap_set. simpl. rewrite !PeanoNat.Nat.eqb_refl, E.
  split; reflexivity.
Qed.

(* ------------------------------------------------------------------ *)
(** * Quotes, report names and line counts *)

Lemma strip_trailing_snoc (x : ascii) (s : string) :
  strip_trailing x (s ++ String x EmptyString) = s.
Proof.
  induction s as [|c s IH]; [simpl; now rewrite Ascii.eqb_refl|].
  change (String c s ++ String x EmptyString) with (String c (s ++ String x EmptyString)).
  destruct (s ++ String x EmptyString) as [|c' t] eqn:E; [destruct s; discriminate|].
  change (strip_trailing x (String c (String c' t))) with (String c (strip_trailing x (String c' t))). now rewrite IH.
Qed.

Lemma strip_trailing_absent (x : ascii) (s : string) :
  count_char x s = 0 -> strip_trailing x s = s.
Proof.
  induction s as [|c s IH]; [reflexivity|]. intros H.
  change (count_char x (String c s)) with ((if Ascii.eqb c x then 1 else 0) + count_char x s) in H.
  destruct (Ascii.eqb c x) eqn:E; [discriminate|].
  destruct s as [|c' s]; [cbn; now rewrite E|].
  change (strip_trailing x (String c (String c' s))) with (String c (strip_trailing x (String c' s))).
  rewrite IH; [reflexivity|exact H].
Qed.

(** [replace(/^"|"$/g, '')] on the title and URL fields removes exactly
    one pair of surrounding double quotes, and leaves a field without
    double quotes as it is. *)
Theorem strip_quotes_spec (s : string) :
  strip_quotes (String dquote (s ++ String dquote EmptyString)) = s
  /\ (count_char dquote s = 0 -> strip_quotes s = s).
Proof.
  split.
  - unfold strip_quotes. cbv zeta iota beta. rewrite Ascii.eqb_refl. apply strip_trailing_snoc.
  - intros H. unfold strip_quotes. destruct s as [|c s]; [reflexivity|].
    cbn [count_char] in H. destruct (Ascii.eqb c dquote) eqn:E; [discriminate|].
    cbv zeta iota beta. apply strip_trailing_absent. cbn [count_char]. now rewrite E.
Qed.

Lemma remove_unsafe_app (a b : string) :
  remove_unsafe (a ++ b) = remove_unsafe a ++ remove_unsafe b.
Proof.
  induction a as [|c a IH]; simpl; [reflexivity|].
  destruct (filename_char c); simpl; now rewrite IH.
Qed.

Lemma remove_unsafe_id (s : string) :
  forallb filename_char (list_ascii_of_string s) = true -> remove_unsafe s = s.
Proof.
  induction s as [|c s IH]; simpl; [reflexivity|].
  intros H. apply andb_prop in H as [H1 H2]. rewrite H1. now rewrite IH.
Qed.

Lemma string_app_inv_l (p a b : string) : p ++ a = p ++ b -> a = b.
Proof. induction p as [|c p IH]; simpl; [easy|]. intros H. injection H as H. now apply IH. Qed.

Lemma list_ascii_of_string_app (a b : string) :
  list_ascii_of_string (a ++ b) = (list_ascii_of_string a ++ list_ascii_of_string b)%list.
Proof. induction a as [|c a IH]; simpl; [reflexivity|]. now rewrite IH. Qed.

Lemma string_app_inv_r (a b c : string) : a ++ c = b ++ c -> a = b.
Proof.
  intros H. apply (f_equal list_ascii_of_string) in H.
  rewrite !list_ascii_of_string_app in H. apply app_inv_tail in H.
  rewrite <- (string_of_list_ascii_of_string a), <- (string_of_list_ascii_of_string b).
  now rewrite H.
Qed.

(** A non-empty date argument made only of letters, digits, [-] and [_]
    (a [YYYY-MM-DD] date, say) names the report [devblognews-<date>.md]
    unchanged, so two such arguments never share a report file. *)
Theorem report_filename_date (d : string) :
  d <> EmptyString -> forallb filename_char (list_ascii_of_string d) = true ->
  report_filename d = "devblognews-" ++ d ++ ".md"
  /\ (forall d', d' <> EmptyString -> forallb filename_char (list_ascii_of_string d') = true ->
        report_filename d' = report_filename d -> d' = d).
Proof.
  assert (Hr : forall x, x <> EmptyString -> forallb filename_char (list_ascii_of_string x) = true ->
                 report_filename x = "devblognews-" ++ x ++ ".md").
  { intros x Hx Hf. unfold report_filename, safeFilename.
    destruct (String.eqb x EmptyString) eqn:E; [apply String.eqb_eq in E; contradiction|].
    rewrite remove_unsafe_app, (remove_unsafe_id x Hf), <- str_app_assoc. reflexivity. }
  intros Hd Hf. split; [now apply Hr|].
  intros d' Hd' Hf' E. rewrite (Hr d' Hd' Hf'), (Hr d Hd Hf) in E.
  apply string_app_inv_l in E. now apply string_app_inv_r in E.
Qed.

Lemma count_concat (x : ascii) (L : list string) :
  L <> [] ->
  count_char x (String.concat (String x EmptyString) L) = length L - 1 + list_sum (map (count_char x) L).
Proof.
  induction L as [|a L IH]; [easy|]. intros _. destruct L as [|b L]; [simpl; lia|].
  change (String.concat (String x EmptyString) (a :: b :: L))
    with (a ++ String x EmptyString ++ String.concat (String x EmptyString) (b :: L)).
  rewrite !count_char_app, IH by discriminate. cbn [count_char]. rewrite Ascii.eqb_refl.
  cbn [length map list_sum fold_right]. lia.
Qed.

Lemma escape_pipes_count_other (x : ascii) (s : string) :
  Ascii.eqb "|" x = false -> count_char x "&#124;" = 0 ->
  count_char x (escape_pipes s) = count_char x s.
Proof.
  intros Hx Hr. induction s as [|c s IH]; [reflexivity|]. cbn [escape_pipes count_char].
  destruct (Ascii.eqb c "|") eqn:E.
  - apply Ascii.eqb_eq in E. subst c. rewrite count_char_app, Hr, IH, Hx. reflexivity.
  - cbn [count_char]. now rewrite IH.
Qed.

Lemma render_row_newlines (e : Entry.t) :
  count_char "010" (render_row e)
  = count_char "010" (Entry.publication_date e) + count_char "010" (Entry.title e)
    + count_char "010" (Entry.url e) + count_char "010" (Entry.author e)
    + count_char "010" (Entry.type e).
Proof.
  unfold render_row. rewrite !count_char_app.
  rewrite escape_pipes_count_other by reflexivity.
  rewrite !(count_num_to_string _ number_chars_newline). simpl. lia.
Qed.

Lemma list_sum_zero {A : Type} (f : A -> nat) (l : list A) :
  (forall a, In a l -> f a = 0) -> list_sum (map f l) = 0.
Proof.
  induction l as [|a l IH]; simpl; intros H; [reflexivity|].
  rewrite (H a (or_introl eq_refl)), IH; [reflexivity|]. intros b Hb. apply H. now right.
Qed.

(** When no field holds a line break, the markdown has one line per post
    after its five header lines: four plus one line break per post. *)
Theorem generateMarkdownOutput_lines (h : heap) (posts : nat) (inputDate : string) :
  count_char "010" inputDate = 0 ->
  (forall e, In e (h posts) ->
     count_char "010" (Entry.publication_date e) + count_char "010" (Entry.title e)
     + count_char "010" (Entry.url e) + count_char "010" (Entry.author e)
     + count_char "010" (Entry.type e) = 0) ->
  count_char "010" (fst (generateMarkdownOutput h posts inputDate)) = 4 + length (h posts).
Proof.
  intros Hd Hrows. unfold generateMarkdownOutput, newline. cbn [fst].
  destruct (sort_by_date_props (h posts)) as [_ [Hperm _]].
  change (ascii_of_nat 10) with "010"%char.
  rewrite count_concat by (unfold markdown_header; discriminate).
  rewrite length_app, map_app, list_sum_app, length_map, <- (Permutation_length Hperm).
  rewrite map_map, (list_sum_zero _ (sort_by_date (h posts))).
  2:{ intros e He. cbv beta. rewrite render_row_newlines. apply Hrows.
      exact (Permutation_in _ (Permutation_sym Hperm) He). }
  unfold markdown_header. cbn [map list_sum fold_right length]. rewrite count_char_app, Hd. simpl. lia.
Qed.

(* ------------------------------------------------------------------ *)
(** * Composition of requests and the parameters [main] sends *)

(** Fetching a list of post types is fetching each part of it in turn:
    the entries for [ts1 ++ ts2] are those for [ts1] followed by those for
    [ts2]. *)
Theorem fetchWordPressPosts_app
    (axios_get : string -> list (string * string) -> fetch_result)
    (toISOString : string -> option string) (baseUrl : string)
    (ts1 ts2 : list string) (afterDate : option string) (page perPage : Z) (vd : views_data) :
  fetchWordPressPosts axios_get toISOString baseUrl (ts1 ++ ts2) afterDate page perPage vd
  = (fetchWordPressPosts axios_get toISOString baseUrl ts1 afterDate page perPage vd
     ++ fetchWordPressPosts axios_get toISOString baseUrl ts2 afterDate page perPage vd)%list.
Proof.
  unfold fetchWordPressPosts. rewrite !fetch_loop, map_app, concat_app. reflexivity.
Qed.

Lemma main_gets
    (axios_get : string -> list (string * string) -> fetch_result)
    (toISOString new_Date readFile : string -> option string)
    (csv_parse : string -> option (list (list string)))
    (json_stringify : views_data -> string) (writeFile_ok : string -> string -> bool)
    (argv2 : option string) (url : string) (params : list (string * string)) :
  In (HttpGet url params)
     (main axios_get toISOString new_Date readFile csv_parse json_stringify writeFile_ok argv2) ->
  exists afterDate, resolve_after_date new_Date (date_input argv2) = Some afterDate
                    /\ params = request_params 1 100 afterDate.
Proof.
  unfold main.
  destruct (readFile CSV_FILE) as [csv|]; [|intros [H|[]]; discriminate].
  destruct (csv_parse csv) as [records|]; [|intros [H|[]]; discriminate].
  set (json := json_stringify _).
  destruct (writeFile_ok "views_data.json" json); simpl negb; cbv iota.
  2:{ intros [H|[H|[]]]; discriminate. }
  destruct (resolve_after_date new_Date (date_input argv2)) as [afterDate|].
  2:{ intros [H|[H|[]]]; discriminate. }
  intros [H|H]; [discriminate|]. apply in_app_or in H as [H|H].
  - unfold fetch_requests in H. rewrite map_map in H.
    apply in_map_iff in H as [pt [E _]]. injection E as _ <-. eauto.
  - exfalso. revert H.
    destruct (fetchWordPressPosts _ _ _ _ _ _ _ _); [intros []|].
    match goal with |- In _ (_ :: (if ?b then _ else _)) -> _ => destruct b end;
      intros H; simpl in H; intuition discriminate.
Qed.

(** Every request [main] makes asks for page 1 with 100 posts per page
    and embedded data, and carries an [after] filter exactly when a date
    argument was given, with the ISO form of that date. *)
Theorem main_request_params
    (axios_get : string -> list (string * string) -> fetch_result)
    (toISOString new_Date readFile : string -> option string)
    (csv_parse : string -> option (list (list string)))
    (json_stringify : views_data -> string) (writeFile_ok : string -> string -> bool)
    (argv2 : option string) (url : string) (params : list (string * string)) :
  In (HttpGet url params)
     (main axios_get toISOString new_Date readFile csv_parse json_stringify writeFile_ok argv2) ->
  In ("page", "1") params /\ In ("per_page", "100") params /\ In ("_embed", "true") params
  /\ (forall d, In ("after", d) params
                <-> date_input argv2 <> EmptyString /\ new_Date (date_input argv2) = Some d).
Proof.
  intros H. apply main_gets in H as [afterDate [R ->]].
  split; [left; reflexivity|]. split; [right; left; reflexivity|].
  split; [right; right; left; reflexivity|].
  intros d. unfold resolve_after_date, parseDateInput in R. split.
  - intros H. destruct H as [H|[H|[H|H]]]; try discriminate.
    destruct afterDate as [a|]; [|destruct H]. destruct H as [H|[]]. injection H as <-.
    destruct (String.eqb (date_input argv2) EmptyString) eqn:E; [discriminate|].
    split; [intros Z; rewrite Z in E; discriminate|].
    destruct (new_Date (date_input argv2)); [now injection R as ->|discriminate].
  - intros [Hne Hd].
    destruct (String.eqb (date_input argv2) EmptyString) eqn:E;
      [apply String.eqb_eq in E; contradiction|].
    rewrite Hd in R. injection R as <-. right; right; right; left; reflexivity.
Qed.

(* ------------------------------------------------------------------ *)
(** * Instances of the properties above *)

Lemma parseInt_num_to_string_witness :
  is_int_number (2 ^ 60) = true /\ (Z.abs (2 ^ 60) < 10 ^ 21)%Z /\ digit_start ",5" = false
  /\ parseInt (num_to_string (Int (2 ^ 60)) ++ ",5") = Int (2 ^ 60).
Proof.
  split; [reflexivity|]. split; [reflexivity|]. split; [reflexivity|].
  apply parseInt_num_to_string; reflexivity.
Defined.

Lemma parseInt_leading_space_witness :
  forallb is_js_space (list_ascii_of_string "  ") = true
  /\ parseInt ("  " ++ "42") = parseInt "42".
Proof. split; [reflexivity|]. apply parseInt_leading_space; reflexivity. Defined.

Lemma parseInt_no_digit_witness :
  (forall c, In c (list_ascii_of_string "n/a") -> is_digit c = false)
  /\ parseInt "n/a" = NaN.
Proof.
  assert (H : forall c, In c (list_ascii_of_string "n/a") -> is_digit c = false).
  { intros c Hc. simpl in Hc. repeat destruct Hc as [<-|Hc]; try reflexivity. destruct Hc. }
  split; [exact H|]. apply parseInt_no_digit; exact H.
Defined.

Lemma normalizeUrl_trailing_slash_witness :
  ends_with_slash "https://X.com/a" = false
  /\ normalizeUrl ("https://X.com/a" ++ "/") = normalizeUrl "https://X.com/a".
Proof. split; [reflexivity|]. apply normalizeUrl_trailing_slash; reflexivity. Defined.

Lemma normalizeUrl_no_year_witness :
  forallb (fun x => negb (is_year x)) (split_slash "https://X.com/About/") = true
  /\ normalizeUrl "https://X.com/About/"
     = strip_trailing_slash (toLowerCase "https://X.com/About/").
Proof.
  split; [vm_compute; reflexivity|]. apply normalizeUrl_no_year; vm_compute; reflexivity.
Defined.

Lemma normalizeUrl_splits_at_year_witness :
  ["https:"; EmptyString; "x.com"] <> []
  /\ Forall (fun x => has_slash x = false) ["https:"; EmptyString; "x.com"]
  /\ ends_with_slash (join_slash ["https:"; EmptyString; "x.com"]) = false
  /\ is_year "2024" = true
  /\ normalizeUrl (join_slash (["https:"; EmptyString; "x.com"] ++ ["2024"; "hello"]))
     = normalizeUrl (join_slash ["https:"; EmptyString; "x.com"])
       ++ String "/" (normalizeUrl (join_slash ["2024"; "hello"])).
Proof.
  split; [discriminate|]. split; [repeat constructor|].
  split; [reflexivity|]. split; [reflexivity|].
  apply (normalizeUrl_splits_at_year ["https:"; EmptyString; "x.com"] ["hello"] "2024");
    try discriminate; try reflexivity. repeat constructor.
Defined.

Lemma post_views_first_match_witness :
  object_keys views_sample = (["7"] ++ "https://x.com/a/" :: ["https://x.com/a"])%list
  /\ (forall k', In k' ["7"] -> normalizeUrl k' <> normalizeUrl "https://X.com/a")
  /\ normalizeUrl "https://x.com/a/" = normalizeUrl "https://X.com/a"
  /\ js_get "https://x.com/a/" views_sample
     = Some {| ViewRecord.title := "A"; ViewRecord.views := Int 42 |}
  /\ post_views views_sample "https://X.com/a" = Some (Int 42).
Proof.
  assert (H : forall k', In k' ["7"] -> normalizeUrl k' <> normalizeUrl "https://X.com/a").
  { intros k' [<-|[]] E. vm_compute in E. discriminate E. }
  assert (Hk : object_keys views_sample = (["7"] ++ "https://x.com/a/" :: ["https://x.com/a"])%list)
    by (vm_compute; reflexivity).
  split; [exact Hk|]. split; [exact H|]. split; [vm_compute; reflexivity|].
  split; [vm_compute; reflexivity|].
  exact (post_views_first_match views_sample ["7"] ["https://x.com/a"] "https://x.com/a/"
           {| ViewRecord.title := "A"; ViewRecord.views := Int 42 |} "https://X.com/a"
           Hk H ltac:(vm_compute; reflexivity) ltac:(vm_compute; reflexivity)).
Defined.

Lemma fetchWordPressPosts_entry_source_witness :
  In {| Entry.id := 7; Entry.title := "Hello"; Entry.publication_date := "2024-10-01";
        Entry.author := "Ann"; Entry.url := "https://x.com/2024/10/hello/";
        Entry.type := "posts"; Entry.views := Int 0 |}
     (fetchWordPressPosts (fun _ _ => Fetched [post_hello]) iso_stub "https://x.com"
        ["posts"] None 1 100 empty_views)
  /\ exists data p iso,
       In "posts" ["posts"] /\ Fetched [post_hello] = Fetched data /\ In p data
       /\ iso_stub (post_date p) = Some iso /\ 7%Z = post_id p
       /\ "Hello" = post_title_rendered p /\ "https://x.com/2024/10/hello/" = post_link p
       /\ "2024-10-01" = before_T iso /\ "Ann" = author_or_unknown (post_author_name p)
       /\ "Ann" <> EmptyString.
Proof.
  assert (H : In {| Entry.id := 7; Entry.title := "Hello"; Entry.publication_date := "2024-10-01";
                    Entry.author := "Ann"; Entry.url := "https://x.com/2024/10/hello/";
                    Entry.type := "posts"; Entry.views := Int 0 |}
                 (fetchWordPressPosts (fun _ _ => Fetched [post_hello]) iso_stub "https://x.com"
                    ["posts"] None 1 100 empty_views)) by (vm_compute; left; reflexivity).
  split; [exact H|].
  exact (fetchWordPressPosts_entry_source _ _ _ _ _ _ _ _ _ H).
Defined.

Lemma fetch_category_stops_at_bad_date_witness :
  Fetched [post_hello; post_undated; post_hello]
    = Fetched ([post_hello] ++ post_undated :: [post_hello])%list
  /\ iso_stub (post_date post_undated) = None
  /\ fetch_category (fun _ _ => Fetched [post_hello; post_undated; post_hello]) iso_stub
       "https://x.com" None 1 100 empty_views [] "posts"
     = ([] ++ push_posts iso_stub empty_views "posts" [post_hello] [])%list
  /\ length (fetch_category (fun _ _ => Fetched [post_hello; post_undated; post_hello]) iso_stub
               "https://x.com" None 1 100 empty_views [] "posts") = 0 + 1.
Proof.
  split; [reflexivity|]. split; [reflexivity|].
  destruct (fetch_category_stops_at_bad_date
              (fun _ _ => Fetched [post_hello; post_undated; post_hello]) iso_stub
              "https://x.com" None 1 100 empty_views [] "posts" [post_hello] [post_hello] post_undated
              eq_refl eq_refl) as [H1 H2].
  split; [exact H1|]. apply H2. intros q [<-|[]]. discriminate.
Defined.

Lemma generateMarkdownOutput_per_date_order_witness :
  (forall d, filter (same_date d) [entry_on "2024-10-02" 1; entry_on "2024-10-01" 2]
             = filter (same_date d) [entry_on "2024-10-01" 2; entry_on "2024-10-02" 1])
  /\ fst (generateMarkdownOutput (fun _ => [entry_on "2024-10-02" 1; entry_on "2024-10-01" 2]) 0 "all")
     = fst (generateMarkdownOutput (fun _ => [entry_on "2024-10-01" 2; entry_on "2024-10-02" 1]) 0 "all").
Proof.
  assert (H : forall d, filter (same_date d) [entry_on "2024-10-02" 1; entry_on "2024-10-01" 2]
              = filter (same_date d) [entry_on "2024-10-01" 2; entry_on "2024-10-02" 1]).
  { intros d. cbn [filter].
    destruct (same_date d (entry_on "2024-10-02" 1)) eqn:E1,
             (same_date d (entry_on "2024-10-01" 2)) eqn:E2; try reflexivity.
    unfold same_date in E1, E2. apply String.eqb_eq in E1, E2. simpl in E1, E2.
    rewrite <- E1 in E2. discriminate E2. }
  split; [exact H|].
  exact (proj1 (generateMarkdownOutput_per_date_order
                  (fun _ => [entry_on "2024-10-02" 1; entry_on "2024-10-01" 2])
                  (fun _ => [entry_on "2024-10-01" 2; entry_on "2024-10-02" 1]) 0 0 "all" H)).
Defined.

Lemma main_bad_date_witness :
  date_input (Some "yesterday") <> EmptyString
  /\ (fun _ : string => @None string) (date_input (Some "yesterday")) = None
  /\ main (fun _ _ => Fetched []) iso_stub (fun _ => None) (fun _ => Some "csv")
       (fun _ => Some [row_title_a]) (fun _ => "{}") (fun _ _ => true) (Some "yesterday")
     = [WriteFile "views_data.json" "{}"; Exit 1].
Proof.
  split; [discriminate|]. split; [reflexivity|].
  exact (main_bad_date (fun _ _ => Fetched []) iso_stub (fun _ => None) (fun _ => Some "csv")
           (fun _ => Some [row_title_a]) (fun _ => "{}") (fun _ _ => true) (Some "yesterday")
           "csv" [row_title_a] eq_refl eq_refl eq_refl ltac:(discriminate) eq_refl).
Defined.

Lemma main_report_witness :
  resolve_after_date (fun s => Some (s ++ "T00:00:00.000Z")) (date_input (Some "2024-10-01"))
    = Some (Some "2024-10-01T00:00:00.000Z")
  /\ exists content,
       In (WriteFile (report_filename "2024-10-01") content)
          (main (fun _ _ => Fetched [post_hello]) iso_stub (fun s => Some (s ++ "T00:00:00.000Z"))
             (fun _ => Some "csv") (fun _ => Some [row_title_a]) (fun _ => "{}")
             (fun _ _ => true) (Some "2024-10-01")).
Proof.
  split; [reflexivity|].
  pose proof (main_report (fun _ _ => Fetched [post_hello]) iso_stub
                (fun s => Some (s ++ "T00:00:00.000Z")) (fun _ => Some "csv")
                (fun _ => Some [row_title_a]) (fun _ => "{}") (fun _ _ => true)
                (Some "2024-10-01") "csv" [row_title_a] (Some "2024-10-01T00:00:00.000Z")
                eq_refl eq_refl eq_refl eq_refl) as M.
  cbv zeta in M. destruct M as [[_ Hr] _]. apply Hr.
  vm_compute. intro E. discriminate E.
Defined.

Lemma report_filename_date_witness :
  "2024-10-01" <> EmptyString
  /\ forallb filename_char (list_ascii_of_string "2024-10-01") = true
  /\ report_filename "2024-10-01" = "devblognews-" ++ "2024-10-01" ++ ".md".
Proof.
  split; [discriminate|]. split; [reflexivity|].
  exact (proj1 (report_filename_date "2024-10-01" ltac:(discriminate) eq_refl)).
Defined.

Lemma generateMarkdownOutput_lines_witness :
  count_char "010" "2024-10-01" = 0
  /\ count_char "010"
       (fst (generateMarkdownOutput (fun _ => [entry_on "2024-10-02" 1; entry_on "2024-10-01" 2])
               0 "2024-10-01")) = 4 + 2.
Proof.
  split; [reflexivity|].
  apply (generateMarkdownOutput_lines (fun _ => [entry_on "2024-10-02" 1; entry_on "2024-10-01" 2])
           0 "2024-10-01"); [reflexivity|].
  intros e [<-|[<-|[]]]; reflexivity.
Defined.

Lemma main_request_params_witness :
  In (HttpGet (BASE_URL ++ "/wp-json/wp/v2/" ++ "snippets")
              (request_params 1 100 (Some "2024-10-01T00:00:00.000Z")))
     (main (fun _ _ => Fetched [post_hello]) iso_stub (fun s => Some (s ++ "T00:00:00.000Z"))
        (fun _ => Some "csv") (fun _ => Some [row_title_a]) (fun _ => "{}")
        (fun _ _ => true) (Some "2024-10-01"))
  /\ In ("page", "1") (request_params 1 100 (Some "2024-10-01T00:00:00.000Z"))
  /\ In ("after", "2024-10-01T00:00:00.000Z")
        (request_params 1 100 (Some "2024-10-01T00:00:00.000Z")).
Proof.
  assert (H : In (HttpGet (BASE_URL ++ "/wp-json/wp/v2/" ++ "snippets")
                          (request_params 1 100 (Some "2024-10-01T00:00:00.000Z")))
                 (main (fun _ _ => Fetched [post_hello]) iso_stub
                    (fun s => Some (s ++ "T00:00:00.000Z")) (fun _ => Some "csv")
                    (fun _ => Some [row_title_a]) (fun _ => "{}") (fun _ _ => true)
                    (Some "2024-10-01"))) by (vm_compute; right; left; reflexivity).
  destruct (main_request_params _ _ _ _ _ _ _ _ _ _ H) as [Hp [_ [_ Ha]]].
  split; [exact H|]. split; [exact Hp|].
  apply Ha. split; [discriminate|reflexivity].
Defined.
